(** * NIKA analytics dashboard: the cleaning pipeline and the profiler

    A shallow embedding of the data-cleaning workbench
    (frontend/src/components/UnifiedVisualization.tsx, component
    [DataCleaning]), of the statistics and the type inference of the
    analytics page (frontend/src/components/Analytics.tsx) and of the two
    column analysers ([analyzeColumns] of the backend and of the frontend
    utilities), followed by the properties that hold of them.

    JavaScript numbers are IEEE 754 binary64 values: they are modelled by
    Rocq's primitive floats, whose operations are the same ones, so that
    every arithmetic step of the source is kept bit for bit.  Objects used
    as dictionaries (a row, the numeric cache) are finite maps keyed by
    strings: a key is a property of the object itself, and names that an
    object inherits from its prototype (a column called [constructor]) are
    not represented.  What the source obtains from the JavaScript runtime
    (number parsing and printing, dates, case mapping, regular expressions,
    JSON) is collected in a record [Js.Host] that the definitions take as
    a parameter. *)

From Stdlib Require Import ZArith List Bool Ascii String Lia.
From Stdlib Require Uint63.
From Stdlib Require Import Floats.
From stdpp Require Import base option list gmap strings.
Import ListNotations.

Set Warnings "-inexact-float".

(** ** The JavaScript values the pipeline works on *)

Module Js.

(** A cell holds a dynamically typed value.  [VDate t] is a Date object
    whose time value is [t] milliseconds since the epoch.  The Invalid Date
    object is not represented: [toDateOrNull] never produces one, and on a
    dataset that already holds one the preview cannot be computed at all,
    because the duplicate statistic calls [toISOString] on every Date cell
    and that call throws on an invalid date. *)
Inductive value : Type :=
| VUndefined
| VNull
| VBool (b : bool)
| VNum (x : float)
| VStr (s : string)
| VDate (t : Z).

(** What the runtime provides.  Strings are sequences of code units. *)
Record Host : Type := {
  (** [Number(s)] for a string [s] *)
  Number_str : string -> float;
  (** [String(x)] for a number [x] *)
  String_num : float -> string;
  (** [String(d)] for a Date with time value [t] *)
  String_date : Z -> string;
  (** [Date.parse(s)]; [None] stands for NaN *)
  Date_parse : string -> option Z;
  (** the time value of [new Date(x)] for a number [x]; [None] when invalid *)
  TimeClip : float -> option Z;
  toISOString : Z -> string;
  toLocaleDateString : Z -> string;
  getFullYear : Z -> float;
  getMonth : Z -> float;
  getDate : Z -> float;
  (** [getDay()], an index 0..6 *)
  getDay : Z -> nat;
  toLowerCase : string -> string;
  toUpperCase : string -> string;
  trim : string -> string;
  (** removes every character that is not a Unicode letter, a Unicode
      digit or white space: the replace with the pattern
      [/[^\p{L}\p{N}\s]/gu] *)
  strip_non_alphanum : string -> string;
  (** [s.replace(/\b\w/g, char => char.toUpperCase())] *)
  upcase_word_starts : string -> string;
  (** [s.replaceAll(find, replaceWith)] *)
  replaceAll : string -> string -> string -> string;
  Math_trunc : float -> float;
  Math_round : float -> float;
  (** [Math.pow(10, places)] *)
  Math_pow10 : float -> float;
  (** [JSON.stringify] of an object whose keys were inserted in sorted
      order: a function of the finite map alone *)
  JSON_stringify : gmap string value -> string
}.

(** The integer [n] as a number (array lengths and counts are below 2^53,
    where the conversion is exact). *)
Definition num_of_nat (n : nat) : float :=
  PrimFloat.of_uint63 (Uint63.of_Z (Z.of_nat n)).

Definition num_of_Z (z : Z) : float :=
  if (z <? 0)%Z then (- PrimFloat.of_uint63 (Uint63.of_Z (- z)))%float
  else PrimFloat.of_uint63 (Uint63.of_Z z).

(** [Number.isFinite] on a number. *)
Definition isFinite (x : float) : bool := PrimFloat.is_finite x.

(** A number used as a condition: [0], [-0] and [NaN] are falsy. *)
Definition falsy (x : float) : bool := PrimFloat.is_zero x || PrimFloat.is_nan x.

(** [Math.min(a, b)] and [Math.max(a, b)]: NaN is contagious and [-0] is
    below [+0]. *)
Definition Math_min2 (a b : float) : float :=
  if PrimFloat.is_nan a || PrimFloat.is_nan b then PrimFloat.nan
  else if (a <? b)%float then a
  else if (b <? a)%float then b
  else if PrimFloat.get_sign a then a else b.

Definition Math_max2 (a b : float) : float :=
  if PrimFloat.is_nan a || PrimFloat.is_nan b then PrimFloat.nan
  else if (a <? b)%float then b
  else if (b <? a)%float then a
  else if PrimFloat.get_sign a then b else a.

(** [Math.min(...l)] and [Math.max(...l)]. *)
Definition Math_min (l : list float) : float := fold_left Math_min2 l PrimFloat.infinity.
Definition Math_max (l : list float) : float := fold_left Math_max2 l PrimFloat.neg_infinity.

(** [arr.sort((a, b) => a - b)] on an array without NaN: the stable sort
    by the order of the numbers (an element is put before the elements
    that do not compare below it, so that elements that compare equal, 0 and
    -0, keep their order).  On an array that holds NaN the comparator
    answers NaN, the order that the runtime gives is its own choice and is
    not this one: every use below is on numbers that are not NaN. *)
Fixpoint sort_insert (x : float) (l : list float) : list float :=
  match l with
  | [] => [x]
  | y :: r => if (y <? x)%float then y :: sort_insert x r else x :: y :: r
  end.

Definition sort_numbers (l : list float) : list float := fold_right sort_insert [] l.

Section WithHost.
Context (js : Host).

(** [String(v)] *)
Definition ToString (v : value) : string :=
  match v with
  | VUndefined => "undefined"
  | VNull => "null"
  | VBool true => "true"
  | VBool false => "false"
  | VNum x => String_num js x
  | VStr s => s
  | VDate t => String_date js t
  end.

(** [Number(v)] *)
Definition ToNumber (v : value) : float :=
  match v with
  | VUndefined => PrimFloat.nan
  | VNull => 0%float
  | VBool true => 1%float
  | VBool false => 0%float
  | VNum x => x
  | VStr s => Number_str js s
  | VDate t => num_of_Z t
  end.

(** The time value of [new Date(v)] for a [v] that is not a Date. *)
Definition new_Date (v : value) : option Z :=
  match v with
  | VUndefined => None
  | VNull => Some 0%Z
  | VBool true => Some 1%Z
  | VBool false => Some 0%Z
  | VNum x => TimeClip js x
  | VStr s => Date_parse js s
  | VDate t => Some t
  end.
End WithHost.

End Js.

(** ** The cleaning workbench (UnifiedVisualization.tsx) *)

Module Cleaning.
Import Js.

(** *** Type definitions *)

Inductive CleaningActionType : Type :=
| REMOVE_DUPLICATES
| FILL_MISSING
| CHANGE_TYPE
| DROP_COLUMN
| TRIM_WHITESPACE
| LOWERCASE
| UPPERCASE
| REMOVE_NON_ALPHANUM
| NUMBER_ROUND
| NUMBER_SCALE
| REPLACE_SUBSTRING
| CAPITALIZE_WORDS
| EXTRACT_DATE_PART.

#[global] Instance CleaningActionType_eq_dec : EqDecision CleaningActionType.
Proof. solve_decision. Defined.

Inductive Strategy : Type := Mean | Median | Custom | Zero.
Inductive NewType : Type := Text | Integer | Float | Date | Boolean.
Inductive DatePart : Type := Year | Month | Day | Weekday.

(** The payload object: every field is optional.  [customValue] is any
    value, [VUndefined] when the field is absent. *)
Record Payload : Type := {
  columnName : option string;
  strategy : option Strategy;
  customValue : value;
  newType : option NewType;
  roundTo : option float;
  scaleMin : option float;
  scaleMax : option float;
  find : option string;
  replaceWith : option string;
  part : option DatePart
}.

Record CleaningAction : Type := {
  id : string;
  type : CleaningActionType;
  description : string;
  payload : Payload
}.

Record PreviewCell : Type := {
  value : Js.value;
  isChanged : bool
}.

Abbreviation PreviewRow := (gmap string PreviewCell).

Record Column : Type := { name : string }.

Record DatasetLike : Type := {
  columns : list Column;
  data : list (gmap string Js.value)
}.

(** *** Utility helpers *)

Definition isNullish (v : Js.value) : bool :=
  match v with
  | VNull | VUndefined => true
  | VStr s => bool_decide (s = EmptyString)
  | _ => false
  end.

(** [v == null] *)
Definition is_null_or_undefined (v : Js.value) : bool :=
  match v with VNull | VUndefined => true | _ => false end.

(** The characters kept by the replace with [/[^0-9+\-\.eE]/g]. *)
Definition number_like_char (c : ascii) : bool :=
  let n := nat_of_ascii c in
  ((48 <=? n)%nat && (n <=? 57)%nat)
  || (n =? 43)%nat || (n =? 45)%nat || (n =? 46)%nat
  || (n =? 101)%nat || (n =? 69)%nat.

Fixpoint keep_chars (p : ascii -> bool) (s : string) : string :=
  match s with
  | EmptyString => EmptyString
  | String c r => if p c then String c (keep_chars p r) else keep_chars p r
  end.

Section WithHost.
Context (js : Host).

Definition parseNumberLike (v : Js.value) : float :=
  match v with
  | VNull | VUndefined => PrimFloat.nan
  | VNum x => x
  | _ =>
      let cleaned := keep_chars number_like_char (ToString js v) in
      let n := Number_str js cleaned in
      if isFinite n then n else PrimFloat.nan
  end.

Definition toDateOrNull (v : Js.value) : option Z :=
  match v with
  | VDate t => Some t
  | _ => new_Date js v
  end.

Definition lower (v : Js.value) : Js.value :=
  if is_null_or_undefined v then v else VStr (toLowerCase js (ToString js v)).
Definition upper (v : Js.value) : Js.value :=
  if is_null_or_undefined v then v else VStr (toUpperCase js (ToString js v)).
Definition trim (v : Js.value) : Js.value :=
  if is_null_or_undefined v then v else VStr (Js.trim js (ToString js v)).
Definition removeNonAlphanum (v : Js.value) : Js.value :=
  if is_null_or_undefined v then v else VStr (strip_non_alphanum js (ToString js v)).
Definition capitalizeWords (v : Js.value) : Js.value :=
  if is_null_or_undefined v then v else VStr (upcase_word_starts js (ToString js v)).

(** [stableKey]: the keys are sorted before the object is serialised,
    and a Date is replaced by its ISO string. *)
Definition stableKey (row : gmap string Js.value) : string :=
  JSON_stringify js
    ((fun v => match v with VDate t => VStr (toISOString js t) | _ => v end) <$> row).
End WithHost.

(** [mean] and [median] of the cleaning workbench: over the finite
    entries, [None] (null) when there is none. *)
Definition mean (arr : list float) : option float :=
  let nums := List.filter isFinite arr in
  match nums with
  | [] => None
  | _ => Some (fold_left PrimFloat.add nums 0 / num_of_nat (length nums))%float
  end.

Definition median (arr : list float) : option float :=
  let nums := sort_numbers (List.filter isFinite arr) in
  match nums with
  | [] => None
  | _ =>
      let mid := (length nums / 2)%nat in
      Some (if (length nums mod 2 =? 0)%nat
            then ((nth (mid - 1) nums PrimFloat.nan + nth mid nums PrimFloat.nan) / 2)%float
            else nth mid nums PrimFloat.nan)
  end.

(** *** The preview: the fold of the recipe over the original rows *)

(** The two variables the loop over the recipe updates: the rows
    processed so far and the per-column cache of parsed numbers. *)
Record State : Type := {
  processed : list PreviewRow;
  numericCache : gmap string (list float)
}.

(** [row[col]?.value] *)
Definition cell_value (row : PreviewRow) (col : string) : Js.value :=
  match row !! col with
  | Some c => value c
  | None => VUndefined
  end.

(** [a === b].  Two Date objects are strictly equal only when they are
    the same object; the one place that compares two Dates is [setCell],
    whose second disjunct compares their instants, and one object has one
    instant, so object identity needs no representation. *)
Definition strict_eq (a b : Js.value) : bool :=
  match a, b with
  | VUndefined, VUndefined => true
  | VNull, VNull => true
  | VBool x, VBool y => Bool.eqb x y
  | VNum x, VNum y => (x =? y)%float
  | VStr x, VStr y => bool_decide (x = y)
  | _, _ => false
  end.

(** The test of [setCell]: [prev === nextVal], or both are Dates of the
    same instant. *)
Definition unchanged (prev nextVal : Js.value) : bool :=
  strict_eq prev nextVal
  || match prev, nextVal with
     | VDate a, VDate b => (a =? b)%Z
     | _, _ => false
     end.

(** Helper for marking cell changes (applied to the copy of a row). *)
Definition setCell (r : PreviewRow) (key : string) (nextVal : Js.value) : PreviewRow :=
  let prev := cell_value r key in
  let changed := negb (unchanged prev nextVal) in
  <[key := {| value := nextVal;
              isChanged := match r !! key with
                           | Some c => isChanged c || changed
                           | None => changed
                           end |}]> r.

(** A payload field read with [!]: an absent column name or text is the
    value undefined, which as a property key or as a text reads
    "undefined". *)
Definition key_of (o : option string) : string := default "undefined" o.

(** The names that the object literal [{}] of [numericCache] answers
    without having them as keys: the members it inherits from
    [Object.prototype], all truthy. *)
Definition inherited_member (col : string) : bool :=
  bool_decide
    (col ∈ ["constructor"; "toString"; "toLocaleString"; "valueOf"; "hasOwnProperty";
            "isPrototypeOf"; "propertyIsEnumerable"; "__proto__"; "__defineGetter__";
            "__defineSetter__"; "__lookupGetter__"; "__lookupSetter__"]).

Definition weekdays : list string :=
  ["Sunday"; "Monday"; "Tuesday"; "Wednesday"; "Thursday"; "Friday"; "Saturday"].

Section WithHost.
Context (js : Host).

(** [ensureNumericCache], for a column whose name is not an
    [inherited_member]: the lookup [numericCache[col]] then finds what an
    earlier mean or median fill of the recipe stored, or nothing.  For the
    name of an inherited member the lookup of the code finds that member,
    takes it for the stored array, and the fill throws a TypeError
    ([arr.filter] is not a function); this function does not describe
    that run. *)
Definition ensureNumericCache (st : State) (col : string) : list float * State :=
  match numericCache st !! col with
  | Some arr => (arr, st)
  | None =>
      let arr := map (fun r => parseNumberLike js (cell_value r col)) (processed st) in
      (arr, {| processed := processed st;
               numericCache := <[col := arr]> (numericCache st) |})
  end.

(** [REMOVE_DUPLICATES]: the filter with the set [seen]. *)
Fixpoint dedupe (seen : gset string) (rows : list PreviewRow) : list PreviewRow :=
  match rows with
  | [] => []
  | row :: rest =>
      let key := stableKey js (value <$> row) in
      if decide (key ∈ seen) then dedupe seen rest
      else row :: dedupe ({[ key ]} ∪ seen) rest
  end.

Definition fill_row (col : string) (replacement : Js.value) (row : PreviewRow) : PreviewRow :=
  match row !! col with
  | None => row
  | Some cell => if isNullish (value cell) then setCell row col replacement else row
  end.

Definition change_type_value (t : option NewType) (v : Js.value) : Js.value :=
  match t with
  | Some Integer =>
      let n := parseNumberLike js v in
      if isFinite n then VNum (Math_trunc js n) else VNull
  | Some Float =>
      let n := parseNumberLike js v in
      if isFinite n then VNum n else VNull
  | Some Text =>
      if is_null_or_undefined v then VStr EmptyString else VStr (ToString js v)
  | Some Boolean =>
      let s := toLowerCase js (ToString js v) in
      VBool (bool_decide (s ∈ ["true"; "1"; "yes"; "y"]))
  | Some Date =>
      match toDateOrNull js v with
      | Some d => VDate d
      | None => VNull
      end
  | None => v
  end.

Definition change_type_row (col : string) (t : option NewType) (row : PreviewRow) : PreviewRow :=
  match row !! col with
  | None => row
  | Some cell => setCell row col (change_type_value t (value cell))
  end.

Definition drop_row (col : string) (row : PreviewRow) : PreviewRow :=
  match row !! col with
  | Some _ => <[col := {| value := VUndefined; isChanged := true |}]> row
  | None => row
  end.

(** The five text steps share one shape; [f] is [trim], [lower], ... *)
Definition text_row (f : Js.value -> Js.value) (col : string) (row : PreviewRow) : PreviewRow :=
  let v := cell_value row col in
  if is_null_or_undefined v then row
  else
    let nv := f v in
    if strict_eq nv v then row else setCell row col nv.

Definition replace_row (col find replaceWith : string) (row : PreviewRow) : PreviewRow :=
  let v := cell_value row col in
  if is_null_or_undefined v || bool_decide (find = EmptyString) then row
  else
    let nv := VStr (replaceAll js (ToString js v) find replaceWith) in
    if strict_eq nv v then row else setCell row col nv.

Definition date_part_value (p : option DatePart) (date : Z) : option Js.value :=
  match p with
  | Some Year => Some (VNum (getFullYear js date))
  | Some Month => Some (VNum (getMonth js date + 1)%float)
  | Some Day => Some (VNum (getDate js date))
  | Some Weekday =>
      Some (match weekdays !! getDay js date with
            | Some w => VStr w
            | None => VUndefined
            end)
  | None => None
  end.

Definition extract_row (col : string) (p : option DatePart) (row : PreviewRow) : PreviewRow :=
  match toDateOrNull js (cell_value row col) with
  | None => row
  | Some date =>
      match date_part_value p date with
      | None => row
      | Some nv => setCell row col nv
      end
  end.

Definition round_row (col : string) (factor : float) (row : PreviewRow) : PreviewRow :=
  let v := parseNumberLike js (cell_value row col) in
  if isFinite v then setCell row col (VNum (Math_round js (v * factor) / factor)%float)
  else row.

Definition scale_row (col : string) (min max outMin outMax : float) (row : PreviewRow)
  : PreviewRow :=
  let v := parseNumberLike js (cell_value row col) in
  if isFinite v then
    let t := if (max =? min)%float then 0%float else ((v - min) / (max - min))%float in
    setCell row col (VNum (outMin + t * (outMax - outMin))%float)
  else row.

Definition with_rows (st : State) (rows : list PreviewRow) : State :=
  {| processed := rows; numericCache := numericCache st |}.

(** The replacement of [FILL_MISSING], computed once per action. *)
Definition fill_replacement (st : State) (p : Payload) : Js.value * State :=
  let col := key_of (columnName p) in
  match default Zero (strategy p) with
  | Custom => (customValue p, st)
  | Zero => (VNum 0, st)
  | Mean =>
      let '(nums, st') := ensureNumericCache st col in
      (VNum (default 0%float (mean nums)), st')
  | Median =>
      let '(nums, st') := ensureNumericCache st col in
      (VNum (default 0%float (median nums)), st')
  end.

(** One iteration of the loop over the recipe: the [switch]. *)
Definition applyAction (action : CleaningAction) (st : State) : State :=
  let p := payload action in
  let col := key_of (columnName p) in
  match type action with
  | REMOVE_DUPLICATES => with_rows st (dedupe ∅ (processed st))
  | FILL_MISSING =>
      let '(replacement, st') := fill_replacement st p in
      with_rows st' (map (fill_row col replacement) (processed st'))
  | CHANGE_TYPE => with_rows st (map (change_type_row col (newType p)) (processed st))
  | DROP_COLUMN => with_rows st (map (drop_row col) (processed st))
  | TRIM_WHITESPACE => with_rows st (map (text_row (trim js) col) (processed st))
  | LOWERCASE => with_rows st (map (text_row (lower js) col) (processed st))
  | UPPERCASE => with_rows st (map (text_row (upper js) col) (processed st))
  | REMOVE_NON_ALPHANUM =>
      with_rows st (map (text_row (removeNonAlphanum js) col) (processed st))
  | CAPITALIZE_WORDS =>
      with_rows st (map (text_row (capitalizeWords js) col) (processed st))
  | REPLACE_SUBSTRING =>
      with_rows st
        (map (replace_row col (key_of (find p)) (key_of (replaceWith p))) (processed st))
  | EXTRACT_DATE_PART => with_rows st (map (extract_row col (part p)) (processed st))
  | NUMBER_ROUND =>
      let factor := Math_pow10 js (default 0%float (roundTo p)) in
      with_rows st (map (round_row col factor) (processed st))
  | NUMBER_SCALE =>
      let nums := map (fun r => parseNumberLike js (cell_value r col)) (processed st) in
      let finite := List.filter isFinite nums in
      match finite with
      | [] => st
      | _ =>
          let min := Math_min finite in
          let max := Math_max finite in
          let outMin := default 0%float (scaleMin p) in
          let outMax := default 1%float (scaleMax p) in
          with_rows st (map (scale_row col min max outMin outMax) (processed st))
      end
  end.

Definition run (actions : list CleaningAction) (st : State) : State :=
  fold_left (fun st action => applyAction action st) actions st.

(** The original rows wrapped as preview rows. *)
Definition initial_rows (originalDataset : DatasetLike) : list PreviewRow :=
  map (fmap (fun v => {| value := v; isChanged := false |})) (data originalDataset).

Definition initial (originalDataset : DatasetLike) : State :=
  {| processed := initial_rows originalDataset; numericCache := ∅ |}.

(** The rows of the preview ([preview.data]). *)
Definition execute (originalDataset : DatasetLike) (actions : list CleaningAction)
  : list PreviewRow :=
  processed (run actions (initial originalDataset)).
End WithHost.

(** Rows without their dropped cells: the keys whose value is not
    undefined. *)
Definition flatten_row (row : PreviewRow) : gmap string Js.value :=
  omap (fun c => match value c with VUndefined => None | v => Some v end) row.

Record Stats : Type := { missing : nat; dups : nat }.
Record Preview : Type := { preview_data : list PreviewRow; stats : Stats }.

Definition preview (js : Host) (originalDataset : option DatasetLike)
    (actions : list CleaningAction) : Preview :=
  match originalDataset with
  | None => {| preview_data := []; stats := {| missing := 0; dups := 0 |} |}
  | Some ds =>
      let processed := execute js ds actions in
      let flattened := map flatten_row processed in
      let missing :=
        fold_left
          (fun sum row =>
             sum + length (List.filter (fun kv => isNullish kv.2) (map_to_list row)))
          flattened 0 in
      let keys : gset string := list_to_set (map (stableKey js) flattened) in
      {| preview_data := processed;
         stats := {| missing := missing; dups := length flattened - size keys |} |}
  end.

(** *** Handlers *)

(** An action before it gets its id: [Omit<CleaningAction, "id">]. *)
Record ActionDraft : Type := {
  draft_type : CleaningActionType;
  draft_description : string;
  draft_payload : Payload
}.

(** A column name used as a condition: absent and empty names are falsy. *)
Definition truthy_name (o : option string) : bool :=
  match o with
  | Some s => negb (bool_decide (s = EmptyString))
  | None => false
  end.

(** The predicate passed to [actions.some]. *)
Definition similar_step (action : ActionDraft) (a : CleaningAction) : bool :=
  if negb (bool_decide (type a = draft_type action)) then false
  else if negb (truthy_name (columnName (draft_payload action))) then
    bool_decide (type a = REMOVE_DUPLICATES)
  else if bool_decide (draft_type action = REPLACE_SUBSTRING) then
    bool_decide (columnName (payload a) = columnName (draft_payload action))
    && bool_decide (find (payload a) = find (draft_payload action))
  else bool_decide (columnName (payload a) = columnName (draft_payload action)).

Definition isRedundant (actions : list CleaningAction) (action : ActionDraft) : bool :=
  existsb (similar_step action) actions.

(** The notifications shown by [toast.error] and [toast.success]. *)
Inductive Toast : Type :=
| toast_error (message : string)
| toast_success (message : string).

Definition dquote : string := String (ascii_of_nat 34) EmptyString.

(** [handleAddAction]: the new queue and the notification.  [new_id] is the
    id built from the clock and the random generator.  The queue that the
    check reads and the queue that the step is appended to are the same
    state of the component. *)
Definition handleAddAction (new_id : string) (actions : list CleaningAction)
    (action : ActionDraft) : list CleaningAction * Toast :=
  if isRedundant actions action then
    (actions,
     toast_error ("A similar " +:+ dquote +:+ draft_description action +:+ dquote
                  +:+ " step already exists."))
  else
    let newAction :=
      {| id := new_id;
         type := draft_type action;
         description := draft_description action;
         payload := draft_payload action |} in
    (actions ++ [newAction], toast_success ("Added: " +:+ description newAction)).

(** The columns named by the [DROP_COLUMN] steps of the recipe. *)
Definition droppedColumns (actions : list CleaningAction) : list string :=
  map (fun action => key_of (columnName (payload action)))
    (List.filter
       (fun action =>
          bool_decide (type action = DROP_COLUMN) && truthy_name (columnName (payload action)))
       actions).

(** The header of the export: the original columns that no step drops. *)
Definition finalColumns (originalDataset : DatasetLike) (actions : list CleaningAction)
  : list string :=
  map name
    (List.filter (fun col => negb (bool_decide (name col ∈ droppedColumns actions)))
       (columns originalDataset)).

Fixpoint join (sep : string) (l : list string) : string :=
  match l with
  | [] => EmptyString
  | [x] => x
  | x :: r => x +:+ sep +:+ join sep r
  end.

Fixpoint double_quotes (s : string) : string :=
  match s with
  | EmptyString => EmptyString
  | String c r =>
      if bool_decide (c = ascii_of_nat 34) then String c (String c (double_quotes r))
      else String c (double_quotes r)
  end.

Fixpoint has_char (p : ascii -> bool) (s : string) : bool :=
  match s with
  | EmptyString => false
  | String c r => p c || has_char p r
  end.

(** The characters that force a CSV field into quotes: the double quote,
    the comma and the line feed. *)
Definition csv_special (c : ascii) : bool :=
  let n := nat_of_ascii c in (n =? 34)%nat || (n =? 44)%nat || (n =? 10)%nat.

Definition escape (js : Host) (v : Js.value) : string :=
  if is_null_or_undefined v then EmptyString
  else
    let s := match v with
             | VDate t => toLocaleDateString js t
             | _ => ToString js v
             end in
    if has_char csv_special s then dquote +:+ double_quotes s +:+ dquote else s.

Definition objectsToCSV (js : Host) (rows : list (gmap string Js.value))
    (columns : list string) : string :=
  let header := join "," (map (fun c => escape js (VStr c)) columns) in
  let lines :=
    map (fun r => join "," (map (fun c => escape js (default VUndefined (r !! c))) columns))
      rows in
  join (String (ascii_of_nat 10) EmptyString) (header :: lines).

(** The text handed to the download by [exportCSV]. *)
Definition exportCSV (js : Host) (originalDataset : DatasetLike)
    (actions : list CleaningAction) : string :=
  let flattened := map flatten_row (execute js originalDataset actions) in
  objectsToCSV js flattened (finalColumns originalDataset actions).

End Cleaning.

(** ** The statistics of the analytics page (Analytics.tsx) *)

Module Analytics.
Import Js.

(** [isFiniteNumber] on an entry of a [number[]]. *)
Definition isFiniteNumber (x : float) : bool := isFinite x.

Definition sum (a : list float) : float := fold_left PrimFloat.add a 0%float.

Definition mean (a : list float) : float :=
  match a with
  | [] => 0%float
  | _ => (sum a / num_of_nat (length a))%float
  end.

(** [(x - m) ** 2]: the exponent 2 is the product of the base with itself. *)
Definition square (x : float) : float := (x * x)%float.

Definition variance (a : list float) : float :=
  if (length a <? 2)%nat then 0%float
  else
    let m := mean a in
    (sum (map (fun x => square (x - m)) a) / (num_of_nat (length a) - 1))%float.

Definition stdDev (a : list float) : float := PrimFloat.sqrt (variance a).

Record Outliers : Type := { count : nat; idx : list nat }.

(** The loop of [zScoreOutliers], from index [i] on. *)
Fixpoint z_loop (m s threshold : float) (i : nat) (a : list float) : list nat :=
  match a with
  | [] => []
  | x :: rest =>
      let z := ((x - m) / s)%float in
      if (threshold <? PrimFloat.abs z)%float then i :: z_loop m s threshold (S i) rest
      else z_loop m s threshold (S i) rest
  end.

Definition zScoreOutliers (a : list float) (threshold : float) : Outliers :=
  let m := mean a in
  let s := stdDev a in
  if falsy s then {| count := 0; idx := [] |}
  else
    let idx := z_loop m s threshold 0 a in
    {| count := length idx; idx := idx |}.

(** The five running sums of [pearson]. *)
Record Sums : Type := { sx : float; sy : float; sxx : float; syy : float; sxy : float }.

Definition pearson_step (acc : Sums) (p : float * float) : Sums :=
  let '(xi, yi) := p in
  if negb (isFiniteNumber xi) || negb (isFiniteNumber yi) then acc
  else {| sx := (sx acc + xi)%float;
          sy := (sy acc + yi)%float;
          sxx := (sxx acc + xi * xi)%float;
          syy := (syy acc + yi * yi)%float;
          sxy := (sxy acc + xi * yi)%float |}.

Definition pearson (x y : list float) : float :=
  let n := Nat.min (length x) (length y) in
  if (n <? 2)%nat then 0%float
  else
    let acc :=
      fold_left pearson_step (combine x y)
        {| sx := 0; sy := 0; sxx := 0; syy := 0; sxy := 0 |} in
    let n := num_of_nat n in
    let num := (n * sxy acc - sx acc * sy acc)%float in
    let den :=
      PrimFloat.sqrt ((n * sxx acc - sx acc * sx acc) * (n * syy acc - sy acc * sy acc))%float in
    if falsy den then 0%float else (num / den)%float.

(** The entry of [correlations] for the numeric columns [x] and [y]:
    [None] when the pair is skipped. *)
Definition correlation (js : Host) (rows : list (gmap string Js.value)) (x y : string)
  : option float :=
  let xs :=
    List.filter isFiniteNumber (map (fun r => ToNumber js (default VUndefined (r !! x))) rows) in
  let ys :=
    List.filter isFiniteNumber (map (fun r => ToNumber js (default VUndefined (r !! y))) rows) in
  let n := Nat.min (length xs) (length ys) in
  if (n <? 2)%nat then None else Some (pearson (firstn n xs) (firstn n ys)).

(** The type inference of [useRowsAndColumns]: the first 50 values of
    the column that are not missing are scanned. *)
Inductive ColumnKind : Type := numeric_column | categorical_column | datetime_column.

Definition isMissing (v : Js.value) : bool :=
  match v with
  | VNull | VUndefined => true
  | VNum x => PrimFloat.is_nan x
  | VStr s => bool_decide (s = EmptyString)
  | _ => false
  end.

Definition tryDate (js : Host) (v : Js.value) : option Z :=
  match v with
  | VDate t => Some t
  | _ => new_Date js v
  end.

Definition infer_column (js : Host) (column : list Js.value) : ColumnKind :=
  let scanned := firstn 50 (List.filter (fun v => negb (isMissing v)) column) in
  let sawNum :=
    existsb
      (fun v => isFinite (ToNumber js v)
                && negb (match v with VBool _ => true | _ => false end))
      scanned in
  let sawDate :=
    existsb
      (fun v => match v with
                | VStr _ => bool_decide (is_Some (tryDate js v))
                | VDate _ => true
                | _ => false
                end)
      scanned in
  if sawDate then datetime_column
  else if sawNum then numeric_column
  else categorical_column.

End Analytics.

(** ** Sets of values *)

Module JsSet.
Import Js.

(** The equality of [Set]: SameValueZero.  Two Date objects are two
    elements. *)
Definition same_value_zero (a b : Js.value) : bool :=
  match a, b with
  | VUndefined, VUndefined => true
  | VNull, VNull => true
  | VBool x, VBool y => Bool.eqb x y
  | VNum x, VNum y => (x =? y)%float || (PrimFloat.is_nan x && PrimFloat.is_nan y)
  | VStr x, VStr y => bool_decide (x = y)
  | _, _ => false
  end.

(** The elements of [new Set(values)], most recent first. *)
Definition elements_of (values : list Js.value) : list Js.value :=
  fold_left (fun seen v => if existsb (same_value_zero v) seen then seen else v :: seen)
    values [].

(** [new Set(values).size] *)
Definition size_of (values : list Js.value) : nat := length (elements_of values).

End JsSet.

(** ** The column analyser of the backend (analyzeColumns of the upload
    service) *)

Inductive ColumnType : Type := numeric | categorical | date | text.

Module Backend.
Import Js.

Definition present (val : Js.value) : bool :=
  match val with
  | VNull | VUndefined => false
  | VStr s => negb (bool_decide (s = EmptyString))
  | _ => true
  end.

Definition is_number (val : Js.value) : bool :=
  match val with
  | VNum x => negb (PrimFloat.is_nan x)
  | _ => false
  end.

Record ColumnInfo : Type := {
  name : string;
  type : ColumnType;
  missingCount : nat;
  uniqueCount : nat
}.

Section WithHost.
Context (js : Host).

(** Detect column type. *)
Definition detect_type (values : list Js.value) : ColumnType :=
  let uniqueValues := JsSet.size_of values in
  let numericValues := List.filter is_number values in
  let isNumeric :=
    (num_of_nat (length values) * 0.8 <? num_of_nat (length numericValues))%float in
  if isNumeric then numeric
  else if (num_of_nat uniqueValues <? num_of_nat (length values) * 0.1)%float
          && (1 <? uniqueValues)%nat then categorical
  else if existsb (fun val => bool_decide (is_Some (Date_parse js (ToString js val)))) values
  then date
  else text.

Definition analyzeColumn (data : list (gmap string Js.value)) (columnName : string)
  : ColumnInfo :=
  let values :=
    List.filter present (map (fun row => default VUndefined (row !! columnName)) data) in
  {| name := columnName;
     type := detect_type values;
     missingCount := length data - length values;
     uniqueCount := JsSet.size_of values |}.

(** One entry per key of the first row (the order of the keys of an
    object is not represented). *)
Definition analyzeColumns (data : list (gmap string Js.value)) : list ColumnInfo :=
  match data with
  | [] => []
  | first :: _ => map (fun kv => analyzeColumn data kv.1) (map_to_list first)
  end.
End WithHost.

End Backend.

(** ** The frontend data utilities (the module with parseCSV,
    analyzeColumns and generateDataSummary) *)

Module DataUtils.
Import Js.

Definition isMissing (v : Js.value) : bool :=
  match v with
  | VNull | VUndefined => true
  | VStr s => bool_decide (s = EmptyString)
  | VNum x => PrimFloat.is_nan x
  | _ => false
  end.

Definition isFiniteNumber (x : float) : bool := isFinite x.

Definition mean (arr : list float) : float :=
  match arr with
  | [] => 0%float
  | _ => (fold_left PrimFloat.add arr 0 / num_of_nat (length arr))%float
  end.

(** [pearson] of the utilities: the finite pairs are collected first. *)
Definition pearson (x y : list float) : float :=
  let n := Nat.min (length x) (length y) in
  if (n <? 2)%nat then 0%float
  else
    let pairs :=
      List.filter (fun p => isFiniteNumber p.1 && isFiniteNumber p.2) (combine x y) in
    let xs := map fst pairs in
    let ys := map snd pairs in
    if (length xs <? 2)%nat then 0%float
    else
      let mx := mean xs in
      let my := mean ys in
      let '(num, sx, sy) :=
        fold_left
          (fun '(num, sx, sy) '(xi, yi) =>
             ((num + (xi - mx) * (yi - my))%float,
              (sx + (xi - mx) * (xi - mx))%float,
              (sy + (yi - my) * (yi - my))%float))
          pairs (0%float, 0%float, 0%float) in
      let den := PrimFloat.sqrt (sx * sy) in
      if negb (isFiniteNumber num) || negb (isFiniteNumber den) || (den =? 0)%float
      then 0%float
      else (num / den)%float.

Section WithHost.
Context (js : Host).

Definition toNumber (v : Js.value) : float :=
  let n := ToNumber js v in
  if isFinite n then n else PrimFloat.nan.

(** Detect column type. *)
Definition detect_type (values : list Js.value) : ColumnType :=
  let uniqueValues := JsSet.size_of values in
  let numericValues := List.filter isFiniteNumber (map toNumber values) in
  let isNumericCandidate :=
    (0.8 <? num_of_nat (length numericValues) / num_of_nat (length values))%float in
  if isNumericCandidate then numeric
  else if (uniqueValues <=? 50)%nat
          || (num_of_nat uniqueValues / num_of_nat (length values) <? 0.2)%float
  then categorical
  else if existsb (fun val => bool_decide (is_Some (Date_parse js (ToString js val)))) values
  then date
  else text.

Definition column_values (data : list (gmap string Js.value)) (columnName : string)
  : list Js.value :=
  List.filter (fun v => negb (isMissing v))
    (map (fun row => default VUndefined (row !! columnName)) data).
End WithHost.

End DataUtils.

(** ** A runtime for closed examples *)

Module Example.
Import Js.

Definition ascii_lower (c : ascii) : ascii :=
  let n := nat_of_ascii c in
  if (65 <=? n)%nat && (n <=? 90)%nat then ascii_of_nat (n + 32) else c.

Definition ascii_upper (c : ascii) : ascii :=
  let n := nat_of_ascii c in
  if (97 <=? n)%nat && (n <=? 122)%nat then ascii_of_nat (n - 32) else c.

Fixpoint map_string (f : ascii -> ascii) (s : string) : string :=
  match s with
  | EmptyString => EmptyString
  | String c r => String (f c) (map_string f r)
  end.

(** The case mappings are those of the runtime on ASCII text, which is
    all the examples use.  The examples reach no other field: each is
    given the answer of the runtime for input it cannot read (NaN, an
    invalid date) or the identity. *)
Definition host : Host :=
  {| Number_str := fun _ => PrimFloat.nan;
     String_num := fun _ => "NaN";
     String_date := fun _ => "Invalid Date";
     Date_parse := fun _ => None;
     TimeClip := fun _ => None;
     toISOString := fun _ => EmptyString;
     toLocaleDateString := fun _ => EmptyString;
     getFullYear := fun _ => PrimFloat.nan;
     getMonth := fun _ => PrimFloat.nan;
     getDate := fun _ => PrimFloat.nan;
     getDay := fun _ => 0;
     toLowerCase := map_string ascii_lower;
     toUpperCase := map_string ascii_upper;
     trim := fun s => s;
     strip_non_alphanum := fun s => s;
     upcase_word_starts := fun s => s;
     replaceAll := fun s _ _ => s;
     Math_trunc := fun x => x;
     Math_round := fun x => x;
     Math_pow10 := fun _ => 1%float;
     JSON_stringify := fun _ => EmptyString |}.

(** The same runtime, but for [Number("")], which is 0: the one text
    that the examples on blank and on digit-free cells hand to [Number]. *)
Definition blank_host : Host :=
  {| Number_str := fun s => if bool_decide (s = EmptyString) then 0%float else PrimFloat.nan;
     String_num := String_num host;
     String_date := String_date host;
     Date_parse := Date_parse host;
     TimeClip := TimeClip host;
     toISOString := toISOString host;
     toLocaleDateString := toLocaleDateString host;
     getFullYear := getFullYear host;
     getMonth := getMonth host;
     getDate := getDate host;
     getDay := getDay host;
     toLowerCase := toLowerCase host;
     toUpperCase := toUpperCase host;
     trim := trim host;
     strip_non_alphanum := strip_non_alphanum host;
     upcase_word_starts := upcase_word_starts host;
     replaceAll := replaceAll host;
     Math_trunc := Math_trunc host;
     Math_round := Math_round host;
     Math_pow10 := Math_pow10 host;
     JSON_stringify := JSON_stringify host |}.

(** A payload with no field set, and the payloads the examples build
    from it. *)
Definition no_payload : Cleaning.Payload :=
  {| Cleaning.columnName := None;
     Cleaning.strategy := None;
     Cleaning.customValue := VUndefined;
     Cleaning.newType := None;
     Cleaning.roundTo := None;
     Cleaning.scaleMin := None;
     Cleaning.scaleMax := None;
     Cleaning.find := None;
     Cleaning.replaceWith := None;
     Cleaning.part := None |}.

Definition on_column (col : string) : Cleaning.Payload :=
  {| Cleaning.columnName := Some col;
     Cleaning.strategy := None;
     Cleaning.customValue := VUndefined;
     Cleaning.newType := None;
     Cleaning.roundTo := None;
     Cleaning.scaleMin := None;
     Cleaning.scaleMax := None;
     Cleaning.find := None;
     Cleaning.replaceWith := None;
     Cleaning.part := None |}.

Definition fill_with (col : string) (s : Cleaning.Strategy) : Cleaning.Payload :=
  {| Cleaning.columnName := Some col;
     Cleaning.strategy := Some s;
     Cleaning.customValue := VUndefined;
     Cleaning.newType := None;
     Cleaning.roundTo := None;
     Cleaning.scaleMin := None;
     Cleaning.scaleMax := None;
     Cleaning.find := None;
     Cleaning.replaceWith := None;
     Cleaning.part := None |}.

Definition scale_to (col : string) (lo hi : float) : Cleaning.Payload :=
  {| Cleaning.columnName := Some col;
     Cleaning.strategy := None;
     Cleaning.customValue := VUndefined;
     Cleaning.newType := None;
     Cleaning.roundTo := None;
     Cleaning.scaleMin := Some lo;
     Cleaning.scaleMax := Some hi;
     Cleaning.find := None;
     Cleaning.replaceWith := None;
     Cleaning.part := None |}.

Definition step (i : string) (t : Cleaning.CleaningActionType) (p : Cleaning.Payload)
  : Cleaning.CleaningAction :=
  {| Cleaning.id := i; Cleaning.type := t; Cleaning.description := EmptyString;
     Cleaning.payload := p |}.

(** A dataset with the single column [col] holding [values]. *)
Definition one_column (col : string) (values : list Js.value) : Cleaning.DatasetLike :=
  {| Cleaning.columns := [ {| Cleaning.name := col |} ];
     Cleaning.data := map (fun v => {[ col := v ]}) values |}.

(** The cells of column [col], row by row. *)
Definition column_cells (col : string) (rows : list Cleaning.PreviewRow)
  : list (option Cleaning.PreviewCell) :=
  map (fun r => r !! col) rows.

End Example.

(** ** The relations the properties are stated with *)

Module Relations.
Import Js Cleaning.

(** [after] derives from [before] through [R]: some rows of [before]
    were removed, and each row that is left is related by [R] to the row
    of [after] at the same rank. *)
Definition derives {A B : Type} (R : A -> B -> Prop) (before : list A) (after : list B)
  : Prop :=
  exists kept, kept `sublist_of` before /\ Forall2 R kept after.

(** What a step does to one row: nothing, [setCell] on a cell the row
    has, or the deletion mark on a cell the row has. *)
Inductive row_step (r : PreviewRow) : PreviewRow -> Prop :=
| row_kept : row_step r r
| row_set key c nextVal :
    r !! key = Some c -> row_step r (setCell r key nextVal)
| row_dropped key c :
    r !! key = Some c ->
    row_step r (<[key := {| value := VUndefined; isChanged := true |}]> r).



(** The row [r'] keeps the flags of [r]: every cell of [r] is a cell of
    [r'], flagged there when it is flagged in [r]. *)
Definition flags_kept (r r' : PreviewRow) : Prop :=
  forall k c,
    r !! k = Some c ->
    exists c', r' !! k = Some c' /\ (isChanged c = true -> isChanged c' = true).

(** Two steps that differ at most in their id and description. *)
Definition same_step (a b : CleaningAction) : Prop :=
  type a = type b /\ payload a = payload b.

(** The step [a] computes a mean or a median of column [col], and so
    leaves the parsed numbers of [col] in the cache. *)
Definition caches_column (a : CleaningAction) (col : string) : bool :=
  bool_decide (type a = FILL_MISSING)
  && bool_decide (key_of (columnName (payload a)) = col)
  && match strategy (payload a) with
     | Some Mean | Some Median => true
     | _ => false
     end.

(** The numbers the column [col] currently parses to, row by row. *)
Definition column_numbers (js : Host) (rows : list PreviewRow) (col : string) : list float :=
  map (fun r => parseNumberLike js (cell_value r col)) rows.

(** The rule behind [isRedundant], for the queued step [a] and the
    proposed step [action]. *)
Definition similar (action : ActionDraft) (a : CleaningAction) : Prop :=
  type a = draft_type action
  /\ match columnName (draft_payload action) with
     | Some c =>
         if bool_decide (c = EmptyString) then draft_type action = REMOVE_DUPLICATES
         else columnName (payload a) = Some c
              /\ (draft_type action = REPLACE_SUBSTRING ->
                  find (payload a) = find (draft_payload action))
     | None => draft_type action = REMOVE_DUPLICATES
     end.

(** The step [a] can write a value over the deletion mark of column
    [c]: it is a fill or a type change on [c]. *)
Definition revives (a : CleaningAction) (c : string) : bool :=
  (bool_decide (type a = FILL_MISSING) || bool_decide (type a = CHANGE_TYPE))
  && bool_decide (key_of (columnName (payload a)) = c).

(** The row has no value for [c]: no such cell, or the deletion mark. *)
Definition gone (c : string) (r : PreviewRow) : Prop := cell_value r c = VUndefined.

(** The column of a fill step that names one (a non-empty name). *)
Definition fill_column (a : CleaningAction) : option string :=
  if bool_decide (type a = FILL_MISSING) then
    match columnName (payload a) with
    | Some c => if bool_decide (c = EmptyString) then None else Some c
    | None => None
    end
  else None.

Definition fill_columns (actions : list CleaningAction) : list string :=
  omap fill_column actions.

(** The queues the workbench can hold: it starts empty, and is changed
    by [handleAddAction] (every call of it but the one for duplicate
    removal passes a column name), by the removal of the step with a given
    id ([actions.filter(a => a.id !== action.id)]) and by dragging, which
    hands [setActions] the same steps in another order. *)
Inductive reachable : list CleaningAction -> Prop :=
| reachable_empty : reachable []
| reachable_add new_id actions action :
    reachable actions ->
    draft_type action = REMOVE_DUPLICATES \/ is_Some (columnName (draft_payload action)) ->
    reachable (handleAddAction new_id actions action).1
| reachable_remove i actions :
    reachable actions ->
    reachable (List.filter (fun a => negb (bool_decide (id a = i))) actions)
| reachable_reorder actions actions' :
    reachable actions -> actions ≡ₚ actions' -> reachable actions'.

End Relations.

(** ** More of the workbench: committing the preview *)

Module Workbench.
Import Js Cleaning.

(** [autoParse]: a text that reads as a number becomes that number. *)
Definition autoParse (js : Host) (v : string) : Js.value :=
  let trimmed := Js.trim js v in
  if bool_decide (trimmed = EmptyString) then VStr v
  else
    let num := Number_str js trimmed in
    if PrimFloat.is_nan num then VStr v else VNum num.

(** [handleApplyChanges]: the dataset handed to [setDataset] and the
    queue handed to [setActions]; [None] when there is no dataset. *)
Definition handleApplyChanges (js : Host) (originalDataset : option DatasetLike)
    (actions : list CleaningAction) : option (DatasetLike * list CleaningAction) :=
  match originalDataset with
  | None => None
  | Some ds =>
      let finalCleanedData :=
        map flatten_row (preview_data (preview js (Some ds) actions)) in
      let droppedColumns :=
        List.filter (fun n => truthy_name n)
          (map (fun action => columnName (payload action))
             (List.filter (fun action => bool_decide (type action = DROP_COLUMN)) actions)) in
      let nextColumns :=
        List.filter (fun col => negb (bool_decide (Some (name col) ∈ droppedColumns)))
          (columns ds) in
      Some ({| columns := nextColumns; data := finalCleanedData |}, [])
  end.

(** [handleCustomFillSubmit]: the custom fill value typed into the
    input of the column [name]; [None] for the notification when the handler
    returns before [handleAddAction]. *)
Definition handleCustomFillSubmit (js : Host) (new_id : string)
    (actions : list CleaningAction) (value name : string)
  : list CleaningAction * option Toast :=
  if bool_decide (Js.trim js value = EmptyString) then (actions, None)
  else
    let parsedValue := autoParse js value in
    let '(queue, toast) :=
      handleAddAction new_id actions
        {| draft_type := FILL_MISSING;
           draft_description :=
             "Fill missing in '" +:+ name +:+ "' with " +:+ dquote
             +:+ ToString js parsedValue +:+ dquote;
           draft_payload :=
             {| columnName := Some name; strategy := Some Custom;
                customValue := parsedValue; newType := None; roundTo := None;
                scaleMin := None; scaleMax := None; find := None;
                replaceWith := None; part := None |} |} in
    (queue, Some toast).

(** What the redundancy check compares a step by: its kind with its
    column (of non-empty name), and for a substring replace the find text
    too; a duplicate removal without a column by its kind alone; any other
    step without a column by nothing. *)
Definition step_key (a : CleaningAction)
  : option (CleaningActionType * string * option string) :=
  if truthy_name (columnName (payload a)) then
    Some (type a, key_of (columnName (payload a)),
          if bool_decide (type a = REPLACE_SUBSTRING) then find (payload a) else None)
  else if bool_decide (type a = REMOVE_DUPLICATES) then
    Some (REMOVE_DUPLICATES, EmptyString, None)
  else None.

(** The step proposed again: a step without its id. *)
Definition draft_of (a : CleaningAction) : ActionDraft :=
  {| draft_type := type a; draft_description := description a; draft_payload := payload a |}.

(** The rows [r] and [r'] agree on every column but [col]. *)
Definition same_elsewhere (col : string) (r r' : PreviewRow) : Prop :=
  forall k, k <> col -> r' !! k = r !! k.

(** The value [v] is of the type [t] that a type change asks for, or is
    the null that stands for a value that could not be converted. *)
Definition of_new_type (t : NewType) (v : Js.value) : bool :=
  match t, v with
  | Integer, VNum _ | Integer, VNull => true
  | Float, VNum x => isFinite x
  | Float, VNull => true
  | Text, VStr _ => true
  | Boolean, VBool _ => true
  | Date, VDate _ | Date, VNull => true
  | _, _ => false
  end.

(** The text function behind each of the five text steps. *)
Definition text_function (js : Host) (t : CleaningActionType) : option (string -> string) :=
  match t with
  | TRIM_WHITESPACE => Some (Js.trim js)
  | LOWERCASE => Some (toLowerCase js)
  | UPPERCASE => Some (toUpperCase js)
  | REMOVE_NON_ALPHANUM => Some (strip_non_alphanum js)
  | CAPITALIZE_WORDS => Some (upcase_word_starts js)
  | _ => None
  end.

(** [JSON.stringify] leaves out the properties whose value is
    undefined. *)
Definition defined (v : Js.value) : option Js.value :=
  match v with
  | VUndefined => None
  | _ => Some v
  end.

Definition skips_undefined (js : Host) : Prop :=
  forall m : gmap string Js.value, JSON_stringify js m = JSON_stringify js (omap defined m).

(** Two steps for closed examples: a type change of column [n] to
    Float, and a substring replace on [n] with an empty find text. *)
Definition to_float_step : CleaningAction :=
  {| id := "1"; type := CHANGE_TYPE; description := EmptyString;
     payload :=
       {| columnName := Some "n"; strategy := None; customValue := VUndefined;
          newType := Some Float; roundTo := None; scaleMin := None;
          scaleMax := None; find := None; replaceWith := None; part := None |} |}.

Definition empty_find_step : CleaningAction :=
  {| id := "1"; type := REPLACE_SUBSTRING; description := EmptyString;
     payload :=
       {| columnName := Some "n"; strategy := None; customValue := VUndefined;
          newType := None; roundTo := None; scaleMin := None;
          scaleMax := None; find := Some EmptyString; replaceWith := Some "x";
          part := None |} |}.

(** The key that [REMOVE_DUPLICATES] compares rows by. *)
Definition row_key (js : Host) (row : PreviewRow) : string :=
  stableKey js (value <$> row).

End Workbench.

(** ** More of the statistics of the analytics page *)

Module Statistics.
Import Js.

(** [minMax]: one pass with [<] and [>] from the first element. *)
Definition minMax (a : list float) : float * float :=
  match a with
  | [] => (0%float, 0%float)
  | x :: rest =>
      fold_left
        (fun '(mn, mx) v =>
           ((if (v <? mn)%float then v else mn), (if (mx <? v)%float then v else mx)))
        rest (x, x)
  end.

(** [median] of the analytics page: 0 on the empty array. *)
Definition median (a : list float) : float :=
  match a with
  | [] => 0%float
  | _ =>
      let s := sort_numbers a in
      let m := (length s / 2)%nat in
      if (length s mod 2 =? 0)%nat
      then ((nth (m - 1) s PrimFloat.nan + nth m s PrimFloat.nan) / 2)%float
      else nth m s PrimFloat.nan
  end.

Record IqrOutliers : Type := {
  iqr_count : nat;
  iqr_idx : list nat;
  fences : float * float
}.

(** The [forEach] of [iqrOutliers] over the sorted copy, from index [i]. *)
Fixpoint fence_loop (lo hi : float) (i : nat) (s : list float) : list nat :=
  match s with
  | [] => []
  | v :: rest =>
      if (v <? lo)%float || (hi <? v)%float then i :: fence_loop lo hi (S i) rest
      else fence_loop lo hi (S i) rest
  end.

Definition iqrOutliers (a : list float) : IqrOutliers :=
  match a with
  | [] => {| iqr_count := 0; iqr_idx := []; fences := (0%float, 0%float) |}
  | _ =>
      let s := sort_numbers a in
      let q1 := nth (length s * 1 / 4) s PrimFloat.nan in
      let q3 := nth (length s * 3 / 4) s PrimFloat.nan in
      let iqr := (q3 - q1)%float in
      let lo := (q1 - 1.5 * iqr)%float in
      let hi := (q3 + 1.5 * iqr)%float in
      let idx := fence_loop lo hi 0 s in
      {| iqr_count := length idx; iqr_idx := idx; fences := (lo, hi) |}
  end.

(** [countDuplicates]: the loop with the set [seen].  [key] is the
    serialisation of a row with its keys sorted. *)
Fixpoint count_loop (seen : gset string) (keys : list string) : nat :=
  match keys with
  | [] => 0
  | k :: rest =>
      if decide (k ∈ seen) then S (count_loop seen rest)
      else count_loop ({[ k ]} ∪ seen) rest
  end.

Definition countDuplicates {Row : Type} (key : Row -> string) (rows : list Row) : nat :=
  count_loop ∅ (map key rows).

(** The numbers of [s] ascend: each is at most every number after
    it. *)
Fixpoint ascending (s : list float) : Prop :=
  match s with
  | [] => True
  | x :: rest => Forall (fun y => (x <=? y)%float = true) rest /\ ascending rest
  end.

(** The sums of [pearson] with the two columns exchanged. *)
Definition swap_sums (acc : Analytics.Sums) : Analytics.Sums :=
  {| Analytics.sx := Analytics.sy acc; Analytics.sy := Analytics.sx acc;
     Analytics.sxx := Analytics.syy acc; Analytics.syy := Analytics.sxx acc;
     Analytics.sxy := Analytics.sxy acc |}.

(** One turn of the loop of [minMax] on the pair it carries. *)
Definition minMax_step (acc : float * float) (v : float) : float * float :=
  let '(mn, mx) := acc in
  ((if (v <? mn)%float then v else mn), (if (mx <? v)%float then v else mx)).

(** What the loop of [minMax] keeps true of the pair it carries. *)
Definition bounds (seen : list float) (acc : float * float) : Prop :=
  PrimFloat.is_nan acc.1 = false /\ PrimFloat.is_nan acc.2 = false
  /\ acc.1 ∈ seen /\ acc.2 ∈ seen
  /\ forall v, v ∈ seen -> PrimFloat.is_nan v = false ->
       (acc.1 <=? v)%float = true /\ (v <=? acc.2)%float = true.

End Statistics.

(** ** Facts about numbers *)

(** The primitive operations are related to their specification on
    [spec_float] by the axioms of the Standard Library's [FloatAxioms]. *)

Module FloatFacts.


Lemma is_zero_spec (x : float) :
  PrimFloat.is_zero x = true <-> exists s, Prim2SF x = S754_zero s.
Proof.
  unfold PrimFloat.is_zero. rewrite FloatAxioms.eqb_spec.
  change (Prim2SF PrimFloat.zero) with (S754_zero false).
  unfold SFeqb. split.
  - destruct (Prim2SF x) as [s | s | | s m e]; simpl; try discriminate; eauto.
    + destruct s; discriminate.
    + destruct s; discriminate.
  - intros [s ->]. reflexivity.
Qed.


Lemma is_nan_spec (x : float) : PrimFloat.is_nan x = true <-> Prim2SF x = S754_nan.
Proof.
  unfold PrimFloat.is_nan. rewrite FloatAxioms.eqb_spec. unfold SFeqb.
  destruct (Prim2SF x) as [s | s | | s m e]; simpl.
  - split; discriminate.
  - destruct s; split; discriminate.
  - split; reflexivity.
  - rewrite Z.compare_refl, Pos.compare_cont_refl.
    destruct s; simpl; split; discriminate.
Qed.

Lemma is_finite_spec (x : float) :
  PrimFloat.is_finite x = true <->
  (exists s, Prim2SF x = S754_zero s) \/ (exists s m e, Prim2SF x = S754_finite s m e).
Proof.
  unfold PrimFloat.is_finite, PrimFloat.is_infinity.
  rewrite negb_true_iff, orb_false_iff.
  assert (Hn := is_nan_spec x).
  rewrite (FloatAxioms.eqb_spec (PrimFloat.abs x)), abs_spec.
  change (Prim2SF PrimFloat.infinity) with (S754_infinity false).
  destruct (PrimFloat.is_nan x); destruct (Prim2SF x) as [s | s | | s m e] eqn:Hx;
    unfold SFeqb; simpl; split; intros H;
    try (destruct H as [? ?]; discriminate);
    try (destruct Hn as [Hn _]; specialize (Hn eq_refl); discriminate);
    try (destruct Hn as [_ Hn]; specialize (Hn eq_refl); discriminate);
    try (destruct H as [(? & ?) | (? & ? & ? & ?)]; discriminate);
    eauto 6.
Qed.

Lemma SFeqb_refl_finite s m e : SFeqb (S754_finite s m e) (S754_finite s m e) = true.
Proof.
  unfold SFeqb. simpl. rewrite Z.compare_refl.
  destruct s; rewrite ?Pos.compare_cont_refl; reflexivity.
Qed.

(** Adding [0 * d] for a finite [d] gives back the number it is added to. *)
Lemma add_zero_times_finite (a d : float) :
  PrimFloat.is_finite a = true -> PrimFloat.is_finite d = true ->
  (a + 0 * d =? a)%float = true.
Proof.
  intros Ha Hd. apply is_finite_spec in Ha. apply is_finite_spec in Hd.
  rewrite FloatAxioms.eqb_spec, add_spec, mul_spec.
  change (Prim2SF 0%float) with (S754_zero false).
  destruct Hd as [[s Hd] | (s & m & e & Hd)]; rewrite Hd; simpl;
  destruct Ha as [[t Ha] | (t & n & f & Ha)]; rewrite Ha; simpl;
    try apply SFeqb_refl_finite; destruct s, t; reflexivity.
Qed.

(** A finite difference has finite operands. *)
Lemma sub_finite_inv (a b : float) :
  PrimFloat.is_finite (b - a)%float = true -> PrimFloat.is_finite a = true.
Proof.
  intros H. apply is_finite_spec in H. apply is_finite_spec.
  rewrite sub_spec in H. unfold SF64sub in H.
  destruct (Prim2SF b) as [s | s | | s m e], (Prim2SF a) as [t | t | | t n f];
    simpl in H; eauto 6;
    try (destruct H as [(? & H) | (? & ? & ? & H)]; discriminate);
    try (destruct s, t; simpl in H; destruct H as [(? & H) | (? & ? & ? & H)]; discriminate).
Qed.

Lemma zero_square (d : float) : PrimFloat.is_zero d = true -> (d * d)%float = 0%float.
Proof.
  intros [s H]%is_zero_spec. apply Prim2SF_inj. rewrite mul_spec, H.
  destruct s; reflexivity.
Qed.

Lemma falsy_sqrt_zero_div (k : float) :
  let s := PrimFloat.sqrt (0 / k) in
  (PrimFloat.is_zero s || PrimFloat.is_nan s) = true.
Proof.
  intros s. apply orb_true_iff.
  assert (H : (exists t, Prim2SF s = S754_zero t) \/ Prim2SF s = S754_nan).
  { unfold s. rewrite sqrt_spec, div_spec.
    change (Prim2SF 0%float) with (S754_zero false).
    destruct (Prim2SF k) as [t | t | | t n f]; simpl; eauto. }
  destruct H as [H | H]; [left; now apply is_zero_spec | right; now apply is_nan_spec].
Qed.

Lemma SFleb_trans (a b c : spec_float) :
  SFleb a b = true -> SFleb b c = true -> SFleb a c = true.
Proof.
  unfold SFleb, SFcompare.
  destruct a as [sa | sa | | sa ma ea], b as [sb | sb | | sb mb eb], c as [sc | sc | | sc mc ec];
    try destruct sa; try destruct sb; try destruct sc; simpl;
    try discriminate; try reflexivity;
    change (Pos.compare_cont Eq) with Pos.compare;
    destruct (Z.compare_spec ea eb), (Z.compare_spec eb ec), (Z.compare_spec ea ec);
    simpl; try discriminate; try reflexivity; try lia;
    destruct (Pos.compare_spec ma mb), (Pos.compare_spec mb mc), (Pos.compare_spec ma mc);
    simpl; try discriminate; try reflexivity; try lia.
Qed.

Lemma SFleb_total (a b : spec_float) :
  a <> S754_nan -> b <> S754_nan -> SFltb a b = false -> SFleb b a = true.
Proof.
  unfold SFleb, SFltb, SFcompare.
  destruct a as [sa | sa | | sa ma ea], b as [sb | sb | | sb mb eb];
    try destruct sa; try destruct sb; simpl; try congruence;
    change (Pos.compare_cont Eq) with Pos.compare;
    intros _ _;
    rewrite (Z.compare_antisym ea eb); destruct (Z.compare_spec ea eb); simpl; try congruence;
    rewrite (Pos.compare_antisym ma mb); destruct (Pos.compare_spec ma mb); simpl; congruence.
Qed.

Lemma SFltb_leb (a b : spec_float) : SFltb a b = true -> SFleb a b = true.
Proof. unfold SFltb, SFleb. destruct (SFcompare a b) as [[| |]|]; congruence. Qed.

Lemma SFleb_refl (a : spec_float) : a <> S754_nan -> SFleb a a = true.
Proof.
  unfold SFleb, SFcompare. destruct a as [s | s | | s m e]; try destruct s; simpl; try congruence;
  intros _; rewrite Z.compare_refl, Pos.compare_cont_refl; reflexivity.
Qed.

Lemma is_nan_false_spec (x : float) : PrimFloat.is_nan x = false <-> Prim2SF x <> S754_nan.
Proof.
  rewrite <- is_nan_spec. destruct (PrimFloat.is_nan x); split; congruence.
Qed.

Lemma is_finite_not_nan (x : float) : PrimFloat.is_finite x = true -> PrimFloat.is_nan x = false.
Proof.
  unfold PrimFloat.is_finite. intros H%negb_true_iff. by apply orb_false_iff in H as [H _].
Qed.

Lemma leb_trans (a b c : float) :
  (a <=? b)%float = true -> (b <=? c)%float = true -> (a <=? c)%float = true.
Proof. rewrite !leb_spec. apply SFleb_trans. Qed.

Lemma leb_refl (a : float) : PrimFloat.is_nan a = false -> (a <=? a)%float = true.
Proof. rewrite leb_spec. intros H%is_nan_false_spec. by apply SFleb_refl. Qed.

Lemma ltb_leb (a b : float) : (a <? b)%float = true -> (a <=? b)%float = true.
Proof. rewrite ltb_spec, leb_spec. apply SFltb_leb. Qed.

Lemma not_ltb_leb (a b : float) :
  PrimFloat.is_nan a = false -> PrimFloat.is_nan b = false ->
  (a <? b)%float = false -> (b <=? a)%float = true.
Proof.
  rewrite ltb_spec, leb_spec. intros Ha%is_nan_false_spec Hb%is_nan_false_spec.
  by apply SFleb_total.
Qed.

(** No finite number is at or above plus infinity, or at or below minus
    infinity. *)
Lemma infinity_not_leb_finite (x : float) :
  PrimFloat.is_finite x = true -> (PrimFloat.infinity <=? x)%float = false.
Proof.
  intros H%is_finite_spec. rewrite leb_spec.
  change (Prim2SF PrimFloat.infinity) with (S754_infinity false).
  by destruct H as [[s ->] | (s & m & e & ->)].
Qed.

Lemma finite_not_leb_neg_infinity (x : float) :
  PrimFloat.is_finite x = true -> (x <=? PrimFloat.neg_infinity)%float = false.
Proof.
  intros H%is_finite_spec. rewrite leb_spec.
  change (Prim2SF PrimFloat.neg_infinity) with (S754_infinity true).
  by destruct H as [[s ->] | (s & m & e & ->)].
Qed.

End FloatFacts.

(** ** Lists of rows derived from lists of rows *)

Module Derivation.
Import Relations.

Section Derives.
Context {A B C : Type}.

Lemma Forall2_sublist_r (R : A -> B -> Prop) (l : list A) (l' k' : list B) :
  Forall2 R l l' -> k' `sublist_of` l' ->
  exists k, k `sublist_of` l /\ Forall2 R k k'.
Proof.
  intros HF. revert k'. induction HF as [| x y l l' Hxy HF IH]; intros k' Hsub.
  - assert (k' = []) as -> by by apply sublist_nil_r.
    exists []. split; constructor.
  - apply sublist_cons_r in Hsub as [Hsub | (k'' & -> & Hsub)].
    + destruct (IH _ Hsub) as (k & Hk & HFk). exists k. split; [by constructor | done].
    + destruct (IH _ Hsub) as (k & Hk & HFk). exists (x :: k).
      split; [by constructor | by constructor].
Qed.

Lemma Forall2_compose (R1 : A -> B -> Prop) (R2 : B -> C -> Prop) (R3 : A -> C -> Prop)
    (l1 : list A) (l2 : list B) (l3 : list C) :
  (forall a b c, R1 a b -> R2 b c -> R3 a c) ->
  Forall2 R1 l1 l2 -> Forall2 R2 l2 l3 -> Forall2 R3 l1 l3.
Proof.
  intros Hc H12. revert l3. induction H12 as [| a b l1 l2 Hab H12 IH]; intros l3 H23.
  - apply Forall2_nil_inv_l in H23 as ->. constructor.
  - apply Forall2_cons_inv_l in H23 as (c & l3' & Hbc & H23 & ->).
    constructor; eauto.
Qed.

Lemma derives_compose (R1 : A -> B -> Prop) (R2 : B -> C -> Prop) (R3 : A -> C -> Prop)
    (l1 : list A) (l2 : list B) (l3 : list C) :
  (forall a b c, R1 a b -> R2 b c -> R3 a c) ->
  derives R1 l1 l2 -> derives R2 l2 l3 -> derives R3 l1 l3.
Proof.
  intros Hc (k1 & Hk1 & H1) (k2 & Hk2 & H2).
  destruct (Forall2_sublist_r R1 k1 l2 k2 H1 Hk2) as (k & Hk & HF).
  exists k. split; [by etrans | by eapply Forall2_compose].
Qed.

Lemma derives_map (R : A -> B -> Prop) (f : A -> B) (l : list A) :
  (forall a, R a (f a)) -> derives R l (map f l).
Proof.
  intros HR. exists l. split; [done |].
  induction l; constructor; auto.
Qed.
End Derives.

Lemma derives_sublist {A : Type} (R : A -> A -> Prop) (l l' : list A) :
  (forall a, R a a) -> l' `sublist_of` l -> derives R l l'.
Proof.
  intros HR Hs. exists l'. split; [done |].
  clear Hs. induction l'; constructor; auto.
Qed.

Lemma Forall_sublist {A : Type} (P : A -> Prop) (l l' : list A) :
  Forall P l -> l' `sublist_of` l -> Forall P l'.
Proof.
  intros HP Hs. induction Hs as [| x l' l Hs IH | x l' l Hs IH]; [done | |].
  - apply Forall_cons in HP as [? ?]. constructor; auto.
  - apply Forall_cons in HP as [? ?]. auto.
Qed.

End Derivation.

(** ** What one step of the recipe does to the rows *)

Module Steps.
Import Js Cleaning Relations Derivation.

Create HintDb steps.
#[local] Hint Constructors row_step : steps.

Lemma cell_value_Some (r : PreviewRow) (key : string) (c : PreviewCell) :
  r !! key = Some c -> cell_value r key = value c.
Proof. unfold cell_value. by intros ->. Qed.

(** A cell whose value is not undefined is a cell of the row. *)
Lemma cell_value_defined (r : PreviewRow) (key : string) :
  cell_value r key <> VUndefined -> exists c, r !! key = Some c.
Proof. unfold cell_value. destruct (r !! key); [eauto | done]. Qed.

(** [setCell] on a cell of the row: the new flag is the old one or the
    comparison of the new value with the value just before. *)
Lemma setCell_lookup (r : PreviewRow) (key : string) (c : PreviewCell) (nextVal : Js.value) :
  r !! key = Some c ->
  setCell r key nextVal !! key
  = Some {| value := nextVal;
            isChanged := isChanged c || negb (unchanged (value c) nextVal) |}.
Proof.
  intros H. unfold setCell. rewrite lookup_insert_eq, (cell_value_Some _ _ _ H), H. done.
Qed.

Lemma setCell_lookup_ne (r : PreviewRow) (key k : string) (nextVal : Js.value) :
  key <> k -> setCell r key nextVal !! k = r !! k.
Proof. intros H. unfold setCell. by rewrite lookup_insert_ne. Qed.

Section WithHost.
Context (js : Host).

Lemma isFinite_parse_defined (v : Js.value) :
  isFinite (parseNumberLike js v) = true -> v <> VUndefined.
Proof. by intros H ->. Qed.

Lemma fill_row_step col replacement r : row_step r (fill_row col replacement r).
Proof.
  unfold fill_row. destruct (r !! col) eqn:E; [| constructor].
  destruct (isNullish _); eauto with steps.
Qed.

Lemma change_type_row_step col t r : row_step r (change_type_row js col t r).
Proof. unfold change_type_row. destruct (r !! col) eqn:E; eauto with steps. Qed.

Lemma drop_row_step col r : row_step r (drop_row col r).
Proof. unfold drop_row. destruct (r !! col) eqn:E; eauto with steps. Qed.

Lemma text_row_step f col r : row_step r (text_row f col r).
Proof.
  unfold text_row. destruct (is_null_or_undefined _) eqn:E; [constructor |].
  destruct (strict_eq _ _); [constructor |].
  destruct (cell_value_defined r col) as [c Hc]; [by intros H; rewrite H in E |].
  eauto with steps.
Qed.

Lemma replace_row_step col f w r : row_step r (replace_row js col f w r).
Proof.
  unfold replace_row. destruct (is_null_or_undefined _) eqn:E; [constructor |].
  cbn [orb]. destruct (bool_decide (f = EmptyString)); [constructor |].
  destruct (strict_eq _ _); [constructor |].
  destruct (cell_value_defined r col) as [c Hc]; [by intros H; rewrite H in E |].
  eauto with steps.
Qed.

Lemma extract_row_step col p r : row_step r (extract_row js col p r).
Proof.
  unfold extract_row. destruct (toDateOrNull _ _) eqn:E; [| constructor].
  destruct (date_part_value _ _ _); [| constructor].
  destruct (cell_value_defined r col) as [c Hc]; [by intros H; rewrite H in E |].
  eauto with steps.
Qed.

Lemma round_row_step col factor r : row_step r (round_row js col factor r).
Proof.
  unfold round_row. destruct (isFinite _) eqn:E; [| constructor].
  destruct (cell_value_defined r col) as [c Hc];
    [by eapply isFinite_parse_defined | eauto with steps].
Qed.

Lemma scale_row_step col mn mx lo hi r : row_step r (scale_row js col mn mx lo hi r).
Proof.
  unfold scale_row. destruct (isFinite _) eqn:E; [| constructor].
  destruct (cell_value_defined r col) as [c Hc];
    [by eapply isFinite_parse_defined | eauto with steps].
Qed.

Lemma dedupe_sublist seen rows : dedupe js seen rows `sublist_of` rows.
Proof.
  revert seen. induction rows as [| row rows IH]; intros seen; simpl; [done |].
  destruct (decide _); by constructor.
Qed.

Lemma fill_replacement_rows st p :
  processed (fill_replacement js st p).2 = processed st.
Proof.
  unfold fill_replacement, ensureNumericCache.
  destruct (default Zero (strategy p)); try done; by destruct (numericCache st !! _).
Qed.

(** One step: rows are removed, or each row takes a [row_step]. *)
Lemma applyAction_derives action st :
  derives row_step (processed st) (processed (applyAction js action st)).
Proof.
  unfold applyAction.
  destruct (type action); simpl;
    try (apply derives_map; intros r;
         auto using change_type_row_step, drop_row_step, text_row_step, replace_row_step,
           extract_row_step, round_row_step; fail).
  - apply derives_sublist; [constructor | apply dedupe_sublist].
  - pose proof (fill_replacement_rows st (payload action)) as Hrows.
    destruct (fill_replacement js st (payload action)) as [replacement st'].
    simpl in *. rewrite Hrows. apply derives_map. intros r. apply fill_row_step.
  - destruct (List.filter _ _); simpl.
    + apply derives_sublist; [constructor | done].
    + apply derives_map. intros r. apply scale_row_step.
Qed.

(** The whole recipe, for a relation that every [row_step] preserves. *)
Lemma run_derives {A : Type} (R : A -> PreviewRow -> Prop) (origin : list A) actions st :
  (forall o r r', R o r -> row_step r r' -> R o r') ->
  derives R origin (processed st) ->
  derives R origin (processed (run js actions st)).
Proof.
  intros HR. revert st. induction actions as [| action actions IH]; intros st H; [done |].
  simpl. apply IH. eapply derives_compose; [apply HR | done | apply applyAction_derives].
Qed.
End WithHost.

End Steps.

(** ** The change flags of the preview *)

Module Flags.
Import Js Cleaning Relations Derivation Steps.





Lemma flags_kept_refl (r : PreviewRow) : flags_kept r r.
Proof. intros k c H. eauto. Qed.

Lemma flags_kept_step (o r r' : PreviewRow) :
  flags_kept o r -> row_step r r' -> flags_kept o r'.
Proof.
  intros Hk [| key c nextVal Hc | key c Hc]; [done | |]; intros k c0 H0;
    destruct (Hk k c0 H0) as (c1 & H1 & Hflag).
  - destruct (decide (key = k)) as [<- | Hne].
    + rewrite (setCell_lookup _ _ _ _ Hc). eexists; split; [done |]. simpl.
      intros H. rewrite Hc in H1. injection H1 as ->. by rewrite Hflag.
    + rewrite setCell_lookup_ne; eauto.
  - destruct (decide (key = k)) as [<- | Hne].
    + rewrite lookup_insert_eq. eauto.
    + rewrite lookup_insert_ne; eauto.
Qed.

Lemma applyAction_same_step (js : Host) (a b : CleaningAction) (st : State) :
  same_step a b -> applyAction js a st = applyAction js b st.
Proof. intros [Ht Hp]. unfold applyAction. by rewrite Ht, Hp. Qed.

Lemma run_same_steps (js : Host) (actions actions' : list CleaningAction) (st : State) :
  Forall2 same_step actions actions' -> run js actions st = run js actions' st.
Proof.
  intros H. revert st. induction H as [| a b l l' Hab H IH]; intros st; [done |].
  simpl. rewrite (applyAction_same_step js a b st Hab). apply IH.
Qed.

Lemma execute_app (js : Host) (ds : DatasetLike) (before after : list CleaningAction) :
  execute js ds (before ++ after)
  = processed (run js after (run js before (initial ds))).
Proof. unfold execute, run. by rewrite fold_left_app. Qed.



(** C10.  [setCell] compares the new value with the value just before
    and ors the outcome with the flag the cell has; and along the recipe a
    flag never goes back: the rows after [before ++ after] derive from the
    rows after [before], and every cell flagged after [before] is still a
    cell of its row, still flagged, after [after]. The last part is the
    recipe uppercase, lowercase on the cell ["a"]: after the first step the
    cell is flagged, and it stays so when the second step restores it. *)
Theorem changed_flag_is_monotone (js : Host) (ds : DatasetLike)
    (before after : list CleaningAction) :
  (forall (r : PreviewRow) key c nextVal,
      r !! key = Some c ->
      setCell r key nextVal !! key
      = Some {| value := nextVal;
                isChanged := isChanged c || negb (unchanged (value c) nextVal) |})
  /\ derives flags_kept (execute js ds before) (execute js ds (before ++ after))
  /\ Example.column_cells "name"
       (execute Example.host (Example.one_column "name" [VStr "a"])
          [Example.step "1" UPPERCASE (Example.on_column "name")])
     = [Some {| value := VStr "A"; isChanged := true |}]
  /\ Example.column_cells "name"
       (execute Example.host (Example.one_column "name" [VStr "a"])
          ([Example.step "1" UPPERCASE (Example.on_column "name")]
           ++ [Example.step "2" LOWERCASE (Example.on_column "name")]))
     = [Some {| value := VStr "a"; isChanged := true |}].
Proof.
  split; [apply setCell_lookup |]. split; [| split; vm_compute; reflexivity].
  rewrite execute_app. apply run_derives.
  - apply flags_kept_step.
  - apply derives_sublist; [apply flags_kept_refl | done].
Qed.

(** The executor reads the kind and the payload of a step and nothing
    else of it: two recipes whose steps agree in kind and payload, whatever
    their ids (drawn from the clock and the random generator when a step is
    added) and their descriptions, give the same preview, rows, values,
    flags and statistics. *)
Theorem preview_ignores_ids_and_descriptions (js : Host) (originalDataset : option DatasetLike)
    (actions actions' : list CleaningAction) :
  Forall2 same_step actions actions' ->
  preview js originalDataset actions = preview js originalDataset actions'.
Proof.
  intros H. unfold preview. destruct originalDataset as [ds |]; [| done].
  unfold execute. by rewrite (run_same_steps js actions actions' (initial ds) H).
Qed.

Lemma preview_ignores_ids_and_descriptions_witness :
  Forall2 same_step
    [Example.step "1700000000000-0.25" FILL_MISSING (Example.fill_with "age" Mean)]
    [Example.step "1700000000999-0.75" FILL_MISSING (Example.fill_with "age" Mean)]
  /\ preview Example.host (Some (Example.one_column "age" [VNum 10; VNull; VNum 30]))
       [Example.step "1700000000000-0.25" FILL_MISSING (Example.fill_with "age" Mean)]
     = preview Example.host (Some (Example.one_column "age" [VNum 10; VNull; VNum 30]))
         [Example.step "1700000000999-0.75" FILL_MISSING (Example.fill_with "age" Mean)].
Proof.
  assert (H : Forall2 same_step
    [Example.step "1700000000000-0.25" FILL_MISSING (Example.fill_with "age" Mean)]
    [Example.step "1700000000999-0.75" FILL_MISSING (Example.fill_with "age" Mean)]).
  { repeat constructor. }
  split; [exact H | exact (preview_ignores_ids_and_descriptions _ _ _ _ H)].
Defined.

End Flags.

(** ** Filling missing values *)

Module Fill.
Import Js Cleaning Relations Derivation Steps.

Section WithHost.
Context (js : Host).

Lemma applyAction_cache (a : CleaningAction) (st : State) (col : string) :
  caches_column a col = false ->
  numericCache (applyAction js a st) !! col = numericCache st !! col.
Proof.
  unfold caches_column, applyAction. intros H.
  destruct (type a) eqn:Ht; simpl; try done.
  - unfold fill_replacement, ensureNumericCache.
    rewrite bool_decide_eq_true_2 in H by done. simpl in H.
    destruct (strategy (payload a)) as [[| | |] |]; simpl in *; try done.
    + rewrite andb_true_r in H. apply bool_decide_eq_false in H.
      destruct (numericCache st !! key_of (columnName (payload a))); simpl; [done |].
      by rewrite lookup_insert_ne.
    + rewrite andb_true_r in H. apply bool_decide_eq_false in H.
      destruct (numericCache st !! key_of (columnName (payload a))); simpl; [done |].
      by rewrite lookup_insert_ne.
  - by destruct (List.filter _ _).
Qed.

Lemma run_cache (actions : list CleaningAction) (st : State) (col : string) :
  Forall (fun a => caches_column a col = false) actions ->
  numericCache (run js actions st) !! col = numericCache st !! col.
Proof.
  intros H. revert st. induction H as [| a actions Ha H IH]; intros st; [done |].
  simpl. rewrite IH. by apply applyAction_cache.
Qed.

(** A mean fill on a column that is not in the cache yet. *)
Lemma fill_mean_step (action : CleaningAction) (st : State) :
  type action = FILL_MISSING ->
  strategy (payload action) = Some Mean ->
  numericCache st !! key_of (columnName (payload action)) = None ->
  processed (applyAction js action st)
  = map (fill_row (key_of (columnName (payload action)))
           (VNum (default 0%float
                    (mean (column_numbers js (processed st)
                             (key_of (columnName (payload action))))))))
      (processed st).
Proof.
  intros Ht Hs Hc. unfold applyAction, fill_replacement, ensureNumericCache.
  rewrite Ht, Hs, Hc. done.
Qed.

Lemma fill_row_missing (col : string) (x : float) (r : PreviewRow) (c : PreviewCell) :
  r !! col = Some c -> isNullish (value c) = true ->
  fill_row col (VNum x) r = <[col := {| value := VNum x; isChanged := true |}]> r.
Proof.
  intros Hc Hn. unfold fill_row, setCell. rewrite Hc, Hn, (cell_value_Some _ _ _ Hc).
  destruct (value c); try done; simpl; by rewrite orb_true_r.
Qed.

Lemma fill_row_present (col : string) (v : Js.value) (r : PreviewRow) (c : PreviewCell) :
  r !! col = Some c -> isNullish (value c) = false -> fill_row col v r = r.
Proof. intros Hc Hn. unfold fill_row. by rewrite Hc, Hn. Qed.

Lemma fill_row_absent (col : string) (v : Js.value) (r : PreviewRow) :
  r !! col = None -> fill_row col v r = r.
Proof. intros Hc. unfold fill_row. by rewrite Hc. Qed.

End WithHost.

(** Text without a digit, a sign, a dot or an e parses like the empty
    text, which the runtime reads as 0: such a cell counts as 0 in the
    mean. *)
Lemma parseNumberLike_plain_text (js : Host) :
  Number_str js EmptyString = 0%float -> parseNumberLike js (VStr "abc") = 0%float.
Proof.
  intros H. unfold parseNumberLike.
  change (keep_chars number_like_char (ToString js (VStr "abc"))) with EmptyString.
  by rewrite H.
Qed.

(** What a mean fill writes, as the code has it.  A fill-missing step
    with the mean strategy on column [col] (not the name of an inherited
    member), run after the steps [before] of which none has computed a mean
    or a median of [col]: the replacement is the sum of the finite numbers
    that [parseNumberLike] reads in the column, divided by their count (0
    when there is none); it is written, with the flag set, into every cell
    of [col] whose value is missing; a cell that is not missing, and a row
    without the column, is left as it is.  On the column [10, null, 30]
    the missing cell becomes 20. *)
Lemma fill_mean_writes_column_mean (js : Host) (ds : DatasetLike)
    (before : list CleaningAction) (action : CleaningAction) :
  type action = FILL_MISSING ->
  strategy (payload action) = Some Mean ->
  inherited_member (key_of (columnName (payload action))) = false ->
  Forall (fun a => caches_column a (key_of (columnName (payload action))) = false) before ->
  let col := key_of (columnName (payload action)) in
  let rows := execute js ds before in
  let current := List.filter isFinite (column_numbers js rows col) in
  let replacement :=
    match current with
    | [] => 0%float
    | _ => (fold_left PrimFloat.add current 0 / num_of_nat (length current))%float
    end in
  execute js ds (before ++ [action]) = map (fill_row col (VNum replacement)) rows
  /\ (forall r c, r !! col = Some c -> isNullish (value c) = true ->
      fill_row col (VNum replacement) r
      = <[col := {| value := VNum replacement; isChanged := true |}]> r)
  /\ (forall r c, r !! col = Some c -> isNullish (value c) = false ->
      fill_row col (VNum replacement) r = r)
  /\ (forall r, r !! col = None -> fill_row col (VNum replacement) r = r)
  /\ Example.column_cells "age"
       (execute js (Example.one_column "age" [VNum 10; VNull; VNum 30])
          [Example.step "1" FILL_MISSING (Example.fill_with "age" Mean)])
     = [Some {| value := VNum 10; isChanged := false |};
        Some {| value := VNum 20; isChanged := true |};
        Some {| value := VNum 30; isChanged := false |}].
Proof.
  intros Ht Hs _ Hb col rows current replacement.
  split; [| split; [| split; [| split]]].
  - rewrite Flags.execute_app. simpl.
    rewrite (fill_mean_step js action _ Ht Hs).
    + subst replacement current rows col. unfold execute, mean.
      by destruct (List.filter isFinite _).
    + by rewrite (run_cache js before _ _ Hb).
  - intros r c. apply fill_row_missing.
  - intros r c. apply fill_row_present.
  - intros r. apply fill_row_absent.
  - vm_compute. reflexivity.
Qed.

Lemma fill_mean_writes_column_mean_witness :
  execute Example.host (Example.one_column "age" [VNum 10; VNull; VNum 30])
    ([] ++ [Example.step "1" FILL_MISSING (Example.fill_with "age" Mean)])
  = map (fill_row "age" (VNum 20))
      (execute Example.host (Example.one_column "age" [VNum 10; VNull; VNum 30]) []).
Proof.
  exact (proj1 (fill_mean_writes_column_mean Example.host
                  (Example.one_column "age" [VNum 10; VNull; VNum 30]) []
                  (Example.step "1" FILL_MISSING (Example.fill_with "age" Mean))
                  eq_refl eq_refl eq_refl (Forall_nil_2 _))).
Defined.

(** C2 fails on the code.  The column age holds [10, "", 30]: the empty
    text is a missing value ([isNullish]), and [parseNumberLike] hands it
    to [Number], which reads it as 0.  The mean fill then takes the mean
    of 10, 0 and 30 and writes 40/3 = 13.33 into the blank cell, where the
    claim has the mean of the numeric values 10 and 30, that is 20.  A
    text without a digit counts as 0 likewise: on [10, "N/A", null, 30]
    the fill writes 40/3 into the null cell.  With null for the missing
    cell, [10, null, 30], the fill writes 20. *)
Theorem mean_fill_counts_blank_as_zero (js : Host) :
  Number_str js EmptyString = 0%float ->
  Example.column_cells "age"
    (execute js (Example.one_column "age" [VNum 10; VStr EmptyString; VNum 30])
       [Example.step "1" FILL_MISSING (Example.fill_with "age" Mean)])
  = [Some {| value := VNum 10; isChanged := false |};
     Some {| value := VNum (40 / 3); isChanged := true |};
     Some {| value := VNum 30; isChanged := false |}]
  /\ Example.column_cells "age"
       (execute js (Example.one_column "age" [VNum 10; VStr "N/A"; VNull; VNum 30])
          [Example.step "1" FILL_MISSING (Example.fill_with "age" Mean)])
     = [Some {| value := VNum 10; isChanged := false |};
        Some {| value := VStr "N/A"; isChanged := false |};
        Some {| value := VNum (40 / 3); isChanged := true |};
        Some {| value := VNum 30; isChanged := false |}]
  /\ Example.column_cells "age"
       (execute js (Example.one_column "age" [VNum 10; VNull; VNum 30])
          [Example.step "1" FILL_MISSING (Example.fill_with "age" Mean)])
     = [Some {| value := VNum 10; isChanged := false |};
        Some {| value := VNum 20; isChanged := true |};
        Some {| value := VNum 30; isChanged := false |}]
  /\ (40 / 3 =? 20)%float = false.
Proof.
  intros Hblank. destruct js as [Number_str0 ? ? ? ? ? ? ? ? ? ? ? ? ? ? ? ? ? ? ? ?].
  simpl in Hblank.
  split; [| split; [| split]].
  - vm_compute. rewrite Hblank. vm_compute. reflexivity.
  - vm_compute. rewrite Hblank. vm_compute. reflexivity.
  - vm_compute. reflexivity.
  - vm_compute. reflexivity.
Qed.

Lemma mean_fill_counts_blank_as_zero_witness :
  Number_str Example.blank_host EmptyString = 0%float
  /\ Example.column_cells "age"
       (execute Example.blank_host
          (Example.one_column "age" [VNum 10; VStr EmptyString; VNum 30])
          [Example.step "1" FILL_MISSING (Example.fill_with "age" Mean)])
     = [Some {| value := VNum 10; isChanged := false |};
        Some {| value := VNum (40 / 3); isChanged := true |};
        Some {| value := VNum 30; isChanged := false |}].
Proof.
  split; [reflexivity |].
  exact (proj1 (mean_fill_counts_blank_as_zero Example.blank_host eq_refl)).
Defined.

End Fill.

(** ** Min-max scaling *)

Module Scale.
Import Js Cleaning Relations Derivation Steps.

(** *** [Math.min] and [Math.max] of numbers that are not NaN *)

Lemma Math_min2_spec (a b : float) :
  PrimFloat.is_nan a = false -> PrimFloat.is_nan b = false ->
  (Math_min2 a b = a \/ Math_min2 a b = b)
  /\ (Math_min2 a b <=? a)%float = true /\ (Math_min2 a b <=? b)%float = true.
Proof.
  intros Ha Hb. unfold Math_min2. rewrite Ha, Hb. simpl.
  destruct (a <? b)%float eqn:E1.
  { split; [by left |]. split; [by apply FloatFacts.leb_refl | by apply FloatFacts.ltb_leb]. }
  destruct (b <? a)%float eqn:E2.
  { split; [by right |]. split; [by apply FloatFacts.ltb_leb | by apply FloatFacts.leb_refl]. }
  pose proof (FloatFacts.not_ltb_leb a b Ha Hb E1).
  pose proof (FloatFacts.not_ltb_leb b a Hb Ha E2).
  destruct (PrimFloat.get_sign a);
    (split; [auto |]; split; auto using FloatFacts.leb_refl).
Qed.

Lemma Math_max2_spec (a b : float) :
  PrimFloat.is_nan a = false -> PrimFloat.is_nan b = false ->
  (Math_max2 a b = a \/ Math_max2 a b = b)
  /\ (a <=? Math_max2 a b)%float = true /\ (b <=? Math_max2 a b)%float = true.
Proof.
  intros Ha Hb. unfold Math_max2. rewrite Ha, Hb. simpl.
  destruct (a <? b)%float eqn:E1.
  { split; [by right |]. split; [by apply FloatFacts.ltb_leb | by apply FloatFacts.leb_refl]. }
  destruct (b <? a)%float eqn:E2.
  { split; [by left |]. split; [by apply FloatFacts.leb_refl | by apply FloatFacts.ltb_leb]. }
  pose proof (FloatFacts.not_ltb_leb a b Ha Hb E1).
  pose proof (FloatFacts.not_ltb_leb b a Hb Ha E2).
  destruct (PrimFloat.get_sign a);
    (split; [auto |]; split; auto using FloatFacts.leb_refl).
Qed.

Lemma fold_min_spec (l : list float) (acc : float) :
  PrimFloat.is_nan acc = false ->
  Forall (fun x => PrimFloat.is_nan x = false) l ->
  PrimFloat.is_nan (fold_left Math_min2 l acc) = false
  /\ (fold_left Math_min2 l acc <=? acc)%float = true
  /\ Forall (fun x => (fold_left Math_min2 l acc <=? x)%float = true) l
  /\ (fold_left Math_min2 l acc = acc \/ fold_left Math_min2 l acc ∈ l).
Proof.
  intros Hacc Hl. revert acc Hacc.
  induction Hl as [| x l Hx Hl IH]; intros acc Hacc; simpl.
  - split; [done |]. split; [by apply FloatFacts.leb_refl |]. split; [constructor | by left].
  - destruct (Math_min2_spec acc x Hacc Hx) as (Hsel & Hle1 & Hle2).
    assert (Hn : PrimFloat.is_nan (Math_min2 acc x) = false) by (destruct Hsel as [-> | ->]; done).
    destruct (IH _ Hn) as (Hr & Hle & Hall & Hin).
    split; [done |]. split; [by eapply FloatFacts.leb_trans |].
    split; [constructor; [by eapply FloatFacts.leb_trans | done] |].
    destruct Hin as [-> | Hin]; [| right; by right].
    destruct Hsel as [-> | ->]; [by left | right; by left].
Qed.

Lemma fold_max_spec (l : list float) (acc : float) :
  PrimFloat.is_nan acc = false ->
  Forall (fun x => PrimFloat.is_nan x = false) l ->
  PrimFloat.is_nan (fold_left Math_max2 l acc) = false
  /\ (acc <=? fold_left Math_max2 l acc)%float = true
  /\ Forall (fun x => (x <=? fold_left Math_max2 l acc)%float = true) l
  /\ (fold_left Math_max2 l acc = acc \/ fold_left Math_max2 l acc ∈ l).
Proof.
  intros Hacc Hl. revert acc Hacc.
  induction Hl as [| x l Hx Hl IH]; intros acc Hacc; simpl.
  - split; [done |]. split; [by apply FloatFacts.leb_refl |]. split; [constructor | by left].
  - destruct (Math_max2_spec acc x Hacc Hx) as (Hsel & Hle1 & Hle2).
    assert (Hn : PrimFloat.is_nan (Math_max2 acc x) = false) by (destruct Hsel as [-> | ->]; done).
    destruct (IH _ Hn) as (Hr & Hle & Hall & Hin).
    split; [done |]. split; [by eapply FloatFacts.leb_trans |].
    split; [constructor; [by eapply FloatFacts.leb_trans | done] |].
    destruct Hin as [-> | Hin]; [| right; by right].
    destruct Hsel as [-> | ->]; [by left | right; by left].
Qed.

Lemma filter_isFinite_Forall (l : list float) :
  Forall (fun x => isFinite x = true) (List.filter isFinite l).
Proof. apply Forall_forall. intros x Hx%list_elem_of_In. by apply filter_In in Hx as [_ ?]. Qed.

(** Over finite numbers, not none, [Math_min] is the least of them and
    [Math_max] the greatest. *)
Lemma Math_min_max_spec (l : list float) :
  l <> [] -> Forall (fun x => isFinite x = true) l ->
  Math_min l ∈ l /\ Math_max l ∈ l
  /\ Forall (fun x => (Math_min l <=? x)%float = true /\ (x <=? Math_max l)%float = true) l.
Proof.
  intros Hne Hfin.
  assert (Hnan : Forall (fun x => PrimFloat.is_nan x = false) l).
  { eapply Forall_impl; [exact Hfin |]. intros x. apply FloatFacts.is_finite_not_nan. }
  destruct (fold_min_spec l PrimFloat.infinity eq_refl Hnan) as (_ & _ & Hmin & Hmin_in).
  destruct (fold_max_spec l PrimFloat.neg_infinity eq_refl Hnan) as (_ & _ & Hmax & Hmax_in).
  fold (Math_min l) in Hmin, Hmin_in. fold (Math_max l) in Hmax, Hmax_in.
  destruct l as [| x l]; [done |].
  split; [| split].
  - destruct Hmin_in as [E | ?]; [| done]. exfalso.
    apply Forall_cons in Hmin as [Hx _]. rewrite E in Hx.
    apply Forall_cons in Hfin as [Hf _].
    by rewrite (FloatFacts.infinity_not_leb_finite x Hf) in Hx.
  - destruct Hmax_in as [E | ?]; [| done]. exfalso.
    apply Forall_cons in Hmax as [Hx _]. rewrite E in Hx.
    apply Forall_cons in Hfin as [Hf _].
    by rewrite (FloatFacts.finite_not_leb_neg_infinity x Hf) in Hx.
  - rewrite Forall_forall in Hmin, Hmax. apply Forall_forall. intros y Hy. auto.
Qed.

Section WithHost.
Context (js : Host).

Lemma scale_row_not_finite col mn mx lo hi (r : PreviewRow) :
  isFinite (parseNumberLike js (cell_value r col)) = false ->
  scale_row js col mn mx lo hi r = r.
Proof. intros H. unfold scale_row. by rewrite H. Qed.

Lemma scale_row_finite col mn mx lo hi (r : PreviewRow) :
  isFinite (parseNumberLike js (cell_value r col)) = true ->
  cell_value (scale_row js col mn mx lo hi r) col
  = VNum (lo + (if (mx =? mn)%float then 0
                else (parseNumberLike js (cell_value r col) - mn) / (mx - mn))
             * (hi - lo))%float.
Proof.
  intros H. unfold scale_row. rewrite H.
  unfold setCell, cell_value at 1. by rewrite lookup_insert_eq.
Qed.

Lemma scale_step (action : CleaningAction) (st : State) :
  type action = NUMBER_SCALE ->
  applyAction js action st
  = match List.filter isFinite
            (column_numbers js (processed st) (key_of (columnName (payload action))))
    with
    | [] => st
    | finite =>
        with_rows st
          (map (scale_row js (key_of (columnName (payload action)))
                  (Math_min finite) (Math_max finite)
                  (default 0%float (scaleMin (payload action)))
                  (default 1%float (scaleMax (payload action))))
             (processed st))
    end.
Proof.
  intros Ht. unfold applyAction, column_numbers. rewrite Ht.
  by destruct (List.filter isFinite _).
Qed.

End WithHost.

(** What a scale step does, as the code has it.  A scale step on column
    [col] takes [min] and [max] over the finite numbers that
    [parseNumberLike] reads in the column in the rows processed so far.  When there is no such number the step does
    nothing.  Otherwise a cell that parses to a finite [v] becomes
    [outMin + ((v - min) / (max - min)) * (outMax - outMin)] when
    [max] differs from [min]; when [max] equals [min] it becomes
    [outMin + 0 * (outMax - outMin)], which equals [outMin] provided the
    difference of the bounds is finite; a row whose cell does not parse to
    a finite number is left as it is.  [min] and [max] are the least and
    the greatest of those finite numbers.  Scaling [0, 5, 10] to [0, 1]
    gives [0, 0.5, 1]. *)
Lemma scale_maps_to_range (js : Host) (action : CleaningAction) (st : State) :
  type action = NUMBER_SCALE ->
  let col := key_of (columnName (payload action)) in
  let finite := List.filter isFinite (column_numbers js (processed st) col) in
  let min := Math_min finite in
  let max := Math_max finite in
  let outMin := default 0%float (scaleMin (payload action)) in
  let outMax := default 1%float (scaleMax (payload action)) in
  (finite = [] -> applyAction js action st = st)
  /\ (finite <> [] ->
      processed (applyAction js action st)
      = map (scale_row js col min max outMin outMax) (processed st))
  /\ (finite <> [] ->
      min ∈ finite /\ max ∈ finite
      /\ Forall (fun x => (min <=? x)%float = true /\ (x <=? max)%float = true) finite)
  /\ (forall r, isFinite (parseNumberLike js (cell_value r col)) = false ->
      scale_row js col min max outMin outMax r = r)
  /\ (forall r, isFinite (parseNumberLike js (cell_value r col)) = true ->
      (max =? min)%float = false ->
      cell_value (scale_row js col min max outMin outMax r) col
      = VNum (outMin + ((parseNumberLike js (cell_value r col) - min) / (max - min))
                       * (outMax - outMin))%float)
  /\ (forall r, isFinite (parseNumberLike js (cell_value r col)) = true ->
      (max =? min)%float = true ->
      isFinite (outMax - outMin)%float = true ->
      exists y, cell_value (scale_row js col min max outMin outMax r) col = VNum y
                /\ (y =? outMin)%float = true)
  /\ Example.column_cells "v"
       (execute js (Example.one_column "v" [VNum 0; VNum 5; VNum 10])
          [Example.step "1" NUMBER_SCALE (Example.scale_to "v" 0 1)])
     = [Some {| value := VNum 0; isChanged := false |};
        Some {| value := VNum 0.5; isChanged := true |};
        Some {| value := VNum 1; isChanged := true |}].
Proof.
  intros Ht col finite min max outMin outMax.
  pose proof (scale_step js action st Ht) as Hstep. fold col finite in Hstep.
  split; [| split; [| split; [| split; [| split; [| split]]]]].
  - intros E. by rewrite Hstep, E.
  - intros E. rewrite Hstep. subst min max outMin outMax. by destruct finite.
  - intros E. apply Math_min_max_spec; [done | apply filter_isFinite_Forall].
  - apply scale_row_not_finite.
  - intros r Hv Hne. rewrite (scale_row_finite js _ _ _ _ _ _ Hv). by rewrite Hne.
  - intros r Hv He Hd. rewrite (scale_row_finite js _ _ _ _ _ _ Hv), He.
    eexists; split; [done |].
    apply FloatFacts.add_zero_times_finite; [| done].
    by eapply FloatFacts.sub_finite_inv.
  - vm_compute. reflexivity.
Qed.

Lemma scale_maps_to_range_witness :
  processed
    (applyAction Example.host
       (Example.step "1" NUMBER_SCALE (Example.scale_to "v" 0 1))
       (initial (Example.one_column "v" [VNum 0; VNum 5; VNum 10])))
  = map (scale_row Example.host "v" 0 10 0 1)
      (initial_rows (Example.one_column "v" [VNum 0; VNum 5; VNum 10])).
Proof.
  refine (proj1 (proj2 (scale_maps_to_range Example.host
                          (Example.step "1" NUMBER_SCALE (Example.scale_to "v" 0 1))
                          (initial
                             (Example.one_column "v" [VNum 0; VNum 5; VNum 10]))
                          eq_refl)) _).
  vm_compute. discriminate.
Defined.

(** On a degenerate column the step computes
    [outMin + 0 * (outMax - outMin)]: when the difference of the bounds
    overflows, the product is NaN.  Scaling the column [5, 5] to
    [-1e308, 1e308] gives NaN in both cells, not [-1e308]. *)
Lemma degenerate_scale_overflows :
  Example.column_cells "v"
    (execute Example.host (Example.one_column "v" [VNum 5; VNum 5])
       [Example.step "1" NUMBER_SCALE (Example.scale_to "v" (-1e308) 1e308)])
  = [Some {| value := VNum PrimFloat.nan; isChanged := true |};
     Some {| value := VNum PrimFloat.nan; isChanged := true |}]
  /\ isFinite (-1e308)%float = true /\ isFinite 1e308%float = true.
Proof. repeat split; vm_compute; reflexivity. Qed.

(** C3 fails on the code.  The column v holds ["N/A", 5, 10] and is
    scaled to [0, 1].  [parseNumberLike] strips the text of all but
    digits, signs, dots and e, and hands the empty text that is left to
    [Number], which reads it as 0.  The step then takes 0, a value the
    column does not hold, for [min], maps 5 to 0.5 (the claim: the least
    finite value 5 to 0) and writes 0 over the text cell (the claim: a value
    that is not finite is untouched).  The blank cell of ["", 5, 10] is
    overwritten likewise.  On [null, 5, 10] the step does what the claim
    says. *)
Theorem scale_reads_text_as_zero (js : Host) :
  Number_str js EmptyString = 0%float ->
  Example.column_cells "v"
    (execute js (Example.one_column "v" [VStr "N/A"; VNum 5; VNum 10])
       [Example.step "1" NUMBER_SCALE (Example.scale_to "v" 0 1)])
  = [Some {| value := VNum 0; isChanged := true |};
     Some {| value := VNum 0.5; isChanged := true |};
     Some {| value := VNum 1; isChanged := true |}]
  /\ Example.column_cells "v"
       (execute js (Example.one_column "v" [VStr EmptyString; VNum 5; VNum 10])
          [Example.step "1" NUMBER_SCALE (Example.scale_to "v" 0 1)])
     = [Some {| value := VNum 0; isChanged := true |};
        Some {| value := VNum 0.5; isChanged := true |};
        Some {| value := VNum 1; isChanged := true |}]
  /\ Example.column_cells "v"
       (execute js (Example.one_column "v" [VNull; VNum 5; VNum 10])
          [Example.step "1" NUMBER_SCALE (Example.scale_to "v" 0 1)])
     = [Some {| value := VNull; isChanged := false |};
        Some {| value := VNum 0; isChanged := true |};
        Some {| value := VNum 1; isChanged := true |}].
Proof.
  intros Hblank. destruct js as [Number_str0 ? ? ? ? ? ? ? ? ? ? ? ? ? ? ? ? ? ? ? ?].
  simpl in Hblank.
  split; [| split].
  - vm_compute. rewrite Hblank. vm_compute. reflexivity.
  - vm_compute. rewrite Hblank. vm_compute. reflexivity.
  - vm_compute. reflexivity.
Qed.

Lemma scale_reads_text_as_zero_witness :
  Number_str Example.blank_host EmptyString = 0%float
  /\ Example.column_cells "v"
       (execute Example.blank_host
          (Example.one_column "v" [VStr "N/A"; VNum 5; VNum 10])
          [Example.step "1" NUMBER_SCALE (Example.scale_to "v" 0 1)])
     = [Some {| value := VNum 0; isChanged := true |};
        Some {| value := VNum 0.5; isChanged := true |};
        Some {| value := VNum 1; isChanged := true |}].
Proof.
  split; [reflexivity |].
  exact (proj1 (scale_reads_text_as_zero Example.blank_host eq_refl)).
Defined.

End Scale.

(** ** Proposing a step *)

Module Queue.
Import Js Cleaning Relations.

Lemma similar_step_spec (action : ActionDraft) (a : CleaningAction) :
  similar_step action a = true <-> similar action a.
Proof.
  unfold similar_step, similar, truthy_name.
  destruct (decide (type a = draft_type action)) as [Ht | Ht].
  2: { rewrite bool_decide_eq_false_2 by done. simpl. split; [done | by intros [? _]]. }
  rewrite bool_decide_eq_true_2 by done. simpl.
  destruct (columnName (draft_payload action)) as [c |]; simpl.
  - destruct (bool_decide (c = EmptyString)); simpl.
    + rewrite bool_decide_eq_true, Ht. intuition.
    + destruct (decide (draft_type action = REPLACE_SUBSTRING)) as [Hr | Hr].
      * rewrite (bool_decide_eq_true_2 _ Hr), andb_true_iff, !bool_decide_eq_true.
        intuition.
      * rewrite (bool_decide_eq_false_2 _ Hr), bool_decide_eq_true. intuition.
  - rewrite bool_decide_eq_true, Ht. intuition.
Qed.

(** The redundancy rule, as the code has it.  A proposed step is redundant exactly when a
    queued step has its kind and, if the proposed step names a column (a
    non-empty name), that same column, and for a substring replace also the
    same find text (the replacement text is not looked at); a proposed step
    that names no column is redundant exactly when it is a duplicate
    removal and one is queued.  A redundant step is rejected with a
    message and the queue is returned as it was; any other step is appended
    under its new id.  Two fills on one column: the second is rejected;
    fills on two columns: both are accepted. *)
Lemma redundant_steps_are_rejected (new_id : string) (actions : list CleaningAction)
    (action : ActionDraft) :
  (isRedundant actions action = true <-> exists a, a ∈ actions /\ similar action a)
  /\ (isRedundant actions action = true ->
      handleAddAction new_id actions action
      = (actions,
         toast_error ("A similar " +:+ dquote +:+ draft_description action +:+ dquote
                      +:+ " step already exists.")))
  /\ (isRedundant actions action = false ->
      handleAddAction new_id actions action
      = (actions ++ [ {| id := new_id; type := draft_type action;
                         description := draft_description action;
                         payload := draft_payload action |} ],
         toast_success ("Added: " +:+ draft_description action)))
  /\ (let fill col :=
        {| draft_type := FILL_MISSING; draft_description := "Fill " +:+ col;
           draft_payload := Example.fill_with col Zero |} in
      let queue1 := (handleAddAction "1" [] (fill "age")).1 in
      queue1 = [ {| id := "1"; type := FILL_MISSING; description := "Fill age";
                    payload := Example.fill_with "age" Zero |} ]
      /\ (handleAddAction "2" queue1 (fill "age")).1 = queue1
      /\ (handleAddAction "2" queue1 (fill "height")).1
         = queue1 ++ [ {| id := "2"; type := FILL_MISSING; description := "Fill height";
                          payload := Example.fill_with "height" Zero |} ]).
Proof.
  split; [| split; [| split]].
  - unfold isRedundant. rewrite existsb_exists. split.
    + intros (a & Hin & Ha). exists a. split; [by apply list_elem_of_In |].
      by apply similar_step_spec.
    + intros (a & Hin & Ha). exists a. split; [by apply list_elem_of_In |].
      by apply similar_step_spec.
  - intros H. unfold handleAddAction. by rewrite H.
  - intros H. unfold handleAddAction. by rewrite H.
  - vm_compute. done.
Qed.

(** *** The queue never holds two fill steps on one column *)

Lemma fill_column_Some (a : CleaningAction) (c : string) :
  fill_column a = Some c
  <-> type a = FILL_MISSING /\ columnName (payload a) = Some c /\ c <> EmptyString.
Proof.
  unfold fill_column. destruct (decide (type a = FILL_MISSING)) as [Ht | Ht].
  - rewrite bool_decide_eq_true_2 by done.
    destruct (columnName (payload a)) as [c' |]; [| by intuition].
    destruct (decide (c' = EmptyString)) as [He | He].
    + rewrite bool_decide_eq_true_2 by done. split; [done |]. intros (_ & [= ->] & ?). done.
    + rewrite bool_decide_eq_false_2 by done. split.
      * by intros [= ->].
      * by intros (_ & [= ->] & _).
  - rewrite bool_decide_eq_false_2 by done. split; [done | by intros [? _]].
Qed.

Lemma handleAddAction_fill_columns new_id actions action :
  NoDup (fill_columns actions) ->
  NoDup (fill_columns (handleAddAction new_id actions action).1).
Proof.
  intros Hnd. unfold handleAddAction.
  destruct (isRedundant actions action) eqn:Hr; simpl; [done |].
  unfold fill_columns. rewrite omap_app. simpl.
  destruct (fill_column _) as [c |] eqn:Hc; [| by rewrite app_nil_r].
  apply NoDup_app. split; [done |]. split; [| apply NoDup_singleton].
  intros x Hx ->%list_elem_of_singleton.
  apply list_elem_of_omap in Hx as (a & Hin & Ha).
  apply fill_column_Some in Hc as (Ht & Hn & He). simpl in Ht, Hn.
  apply fill_column_Some in Ha as (Hta & Hna & _).
  assert (isRedundant actions action = true) as Hyes; [| congruence].
  unfold isRedundant. apply existsb_exists. exists a.
  split; [by apply list_elem_of_In |].
  unfold similar_step, truthy_name. rewrite Hta, Ht, Hn, Hna.
  rewrite (bool_decide_eq_true_2 (FILL_MISSING = FILL_MISSING)) by done.
  rewrite (bool_decide_eq_false_2 (c = EmptyString)) by done.
  simpl. by rewrite bool_decide_eq_true_2.
Qed.

Lemma fill_columns_filter (p : CleaningAction -> bool) (actions : list CleaningAction) :
  fill_columns (List.filter p actions) `sublist_of` fill_columns actions.
Proof.
  unfold fill_columns. induction actions as [| a actions IH]; simpl; [done |].
  destruct (p a); simpl; destruct (fill_column a);
    first [exact IH | by constructor].
Qed.

Lemma reachable_fill_columns (actions : list CleaningAction) :
  reachable actions -> NoDup (fill_columns actions).
Proof.
  induction 1 as [| new_id actions action _ IH _ | i actions _ IH | actions actions' _ IH Hp].
  - constructor.
  - by apply handleAddAction_fill_columns.
  - eapply sublist_NoDup; [exact IH | apply fill_columns_filter].
  - unfold fill_columns in *. by rewrite <- Hp.
Qed.

(** Every step named a column when it was proposed. *)
Lemma reachable_named (actions : list CleaningAction) :
  reachable actions ->
  Forall (fun a => type a = REMOVE_DUPLICATES \/ is_Some (columnName (payload a))) actions.
Proof.
  induction 1 as [| new_id actions action _ IH Hn | i actions _ IH | actions actions' _ IH Hp].
  - constructor.
  - unfold handleAddAction. destruct (isRedundant actions action); simpl; [done |].
    apply Forall_app. split; [done |]. by constructor.
  - apply Forall_forall. intros a Hin%list_elem_of_In.
    apply filter_In in Hin as [Hin _]. rewrite Forall_forall in IH.
    by apply IH, list_elem_of_In.
  - by rewrite <- Hp.
Qed.

(** In a queue of the workbench, a fill step on a column (of non-empty
    name) runs before any mean or median of that column was cached. *)
Lemma reachable_fill_is_uncached (before after : list CleaningAction)
    (action : CleaningAction) (c : string) :
  reachable (before ++ action :: after) ->
  fill_column action = Some c ->
  Forall (fun a => caches_column a (key_of (columnName (payload action))) = false) before.
Proof.
  intros Hr Hc. pose proof (reachable_fill_columns _ Hr) as Hnd.
  pose proof (reachable_named _ Hr) as Hnamed.
  unfold fill_columns in Hnd. rewrite omap_app in Hnd. simpl in Hnd. rewrite Hc in Hnd.
  apply NoDup_app in Hnd as (_ & Hnot & _).
  apply fill_column_Some in Hc as (Ht & Hn & He). rewrite Hn. simpl.
  apply Forall_app in Hnamed as [Hnamed _].
  apply Forall_forall. intros a Hin. rewrite Forall_forall in Hnamed.
  destruct (caches_column a c) eqn:E; [| done]. exfalso.
  unfold caches_column in E.
  apply andb_true_iff in E as [[Hta%bool_decide_eq_true Hk%bool_decide_eq_true]%andb_true_iff _].
  destruct (Hnamed a Hin) as [Hd | [c' Hc']]; [congruence |].
  rewrite Hc' in Hk. simpl in Hk. subst c'.
  apply (Hnot c).
  - apply list_elem_of_omap. exists a. split; [done |]. by apply fill_column_Some.
  - by left.
Qed.

(** A step that names no column and is not a duplicate removal (a
    proposal that no form of the workbench makes) is accepted, and accepted
    again; the same happens with a column whose name is the empty text. *)
Lemma columnless_step_is_accepted_twice :
  handleAddAction "2"
    (handleAddAction "1" []
       {| draft_type := FILL_MISSING; draft_description := "Fill";
          draft_payload := Example.no_payload |}).1
    {| draft_type := FILL_MISSING; draft_description := "Fill";
       draft_payload := Example.no_payload |}
  = ([ {| id := "1"; type := FILL_MISSING; description := "Fill";
          payload := Example.no_payload |};
       {| id := "2"; type := FILL_MISSING; description := "Fill";
          payload := Example.no_payload |} ],
     toast_success "Added: Fill")
  /\ (handleAddAction "2"
        (handleAddAction "1" []
           {| draft_type := FILL_MISSING; draft_description := "Fill";
              draft_payload := Example.fill_with EmptyString Zero |}).1
        {| draft_type := FILL_MISSING; draft_description := "Fill";
           draft_payload := Example.fill_with EmptyString Zero |}).1
     = [ {| id := "1"; type := FILL_MISSING; description := "Fill";
            payload := Example.fill_with EmptyString Zero |};
         {| id := "2"; type := FILL_MISSING; description := "Fill";
            payload := Example.fill_with EmptyString Zero |} ].
Proof. split; vm_compute; reflexivity. Qed.

(** C4 fails on the code.  The dataset has a column whose name is the
    empty text, and its fill form proposes "fill missing" on it twice.  The
    check tests the proposed column name by its truth value
    ([!action.payload.columnName]), takes the empty name for no name, and
    compares by kind alone as for a duplicate removal: the second proposal
    is accepted and the queue holds two fills on one column, where the claim
    has the second one rejected.  The same two proposals on a column named
    age: the second is rejected and the queue is left as it was. *)
Theorem empty_column_name_is_filled_twice :
  (let fill :=
     {| draft_type := FILL_MISSING; draft_description := "Fill missing in '' using zero";
        draft_payload := Example.fill_with EmptyString Zero |} in
   handleAddAction "2" (handleAddAction "1" [] fill).1 fill
   = ([ {| id := "1"; type := FILL_MISSING; description := "Fill missing in '' using zero";
           payload := Example.fill_with EmptyString Zero |};
        {| id := "2"; type := FILL_MISSING; description := "Fill missing in '' using zero";
           payload := Example.fill_with EmptyString Zero |} ],
      toast_success "Added: Fill missing in '' using zero"))
  /\ (let fill :=
        {| draft_type := FILL_MISSING; draft_description := "Fill missing in 'age' using zero";
           draft_payload := Example.fill_with "age" Zero |} in
      handleAddAction "2" (handleAddAction "1" [] fill).1 fill
      = ([ {| id := "1"; type := FILL_MISSING;
              description := "Fill missing in 'age' using zero";
              payload := Example.fill_with "age" Zero |} ],
         toast_error ("A similar " +:+ dquote +:+ "Fill missing in 'age' using zero" +:+ dquote
                      +:+ " step already exists."))).
Proof. split; vm_compute; reflexivity. Qed.

End Queue.

(** ** Dropping a column *)

Module Drop.
Import Js Cleaning Relations Steps.

(** The header lists the original columns, in their order, without the
    columns that a drop step names. *)
Lemma finalColumns_spec (ds : DatasetLike) (actions : list CleaningAction) (c : string) :
  c ∈ finalColumns ds actions
  <-> c ∈ map name (columns ds) /\ c ∉ droppedColumns actions.
Proof.
  unfold finalColumns. rewrite !list_elem_of_In, !in_map_iff, <- list_elem_of_In. split.
  - intros (col & <- & Hin). apply filter_In in Hin as [Hin Hd].
    apply negb_true_iff, bool_decide_eq_false in Hd. eauto.
  - intros [(col & <- & Hin) Hd]. exists col. split; [done |].
    apply filter_In. split; [done |]. by apply negb_true_iff, bool_decide_eq_false.
Qed.

Lemma droppedColumns_spec (actions : list CleaningAction) (c : string) :
  c ∈ droppedColumns actions
  <-> c <> EmptyString
      /\ exists a, a ∈ actions /\ type a = DROP_COLUMN /\ columnName (payload a) = Some c.
Proof.
  unfold droppedColumns. rewrite list_elem_of_In, in_map_iff. split.
  - intros (a & <- & Hin). apply filter_In in Hin as [Hin [Ht Hn]%andb_true_iff].
    apply bool_decide_eq_true in Ht. unfold truthy_name in Hn.
    destruct (columnName (payload a)) as [s |] eqn:E; [| done]. simpl.
    apply negb_true_iff, bool_decide_eq_false in Hn. split; [done |].
    exists a. by rewrite list_elem_of_In.
  - intros (Hc & a & Hin & Ht & Hn). exists a. rewrite Hn. split; [done |].
    apply filter_In. split; [by apply list_elem_of_In |].
    rewrite Ht, Hn. simpl. by rewrite bool_decide_eq_false_2.
Qed.

(** Right after the drop step a cell of the column holds the deletion
    mark, and the flattened row has no such key. *)
Lemma drop_row_flatten (col : string) (r : PreviewRow) :
  flatten_row (drop_row col r) !! col = None.
Proof.
  unfold flatten_row, drop_row. rewrite lookup_omap.
  destruct (r !! col) eqn:E; [by rewrite lookup_insert_eq | by rewrite E].
Qed.

(** *** A dropped column stays dropped unless a fill or a type change
    follows *)

Lemma gone_flatten (c : string) (r : PreviewRow) : gone c r -> flatten_row r !! c = None.
Proof.
  unfold gone, cell_value, flatten_row. rewrite lookup_omap.
  destruct (r !! c) as [cell |]; simpl; [| done]. by intros ->.
Qed.

Lemma drop_row_gone (c : string) (r : PreviewRow) : gone c (drop_row c r).
Proof.
  unfold gone, cell_value, drop_row.
  destruct (r !! c) eqn:E; [by rewrite lookup_insert_eq | by rewrite E].
Qed.

Lemma setCell_gone (c k : string) (v : Js.value) (r : PreviewRow) :
  k <> c -> gone c r -> gone c (setCell r k v).
Proof. intros Hne. unfold gone, cell_value. by rewrite setCell_lookup_ne. Qed.

Section WithHost.
Context (js : Host) (c : string).

Lemma fill_row_gone col v r : col <> c -> gone c r -> gone c (fill_row col v r).
Proof.
  intros Hne Hg. unfold fill_row. destruct (r !! col); [| done].
  destruct (isNullish _); [by apply setCell_gone | done].
Qed.

Lemma change_type_row_gone col t r :
  col <> c -> gone c r -> gone c (change_type_row js col t r).
Proof.
  intros Hne Hg. unfold change_type_row. destruct (r !! col); [| done].
  by apply setCell_gone.
Qed.

Lemma drop_other_row_gone col r : gone c r -> gone c (drop_row col r).
Proof.
  intros Hg. destruct (decide (col = c)) as [-> | Hne]; [apply drop_row_gone |].
  unfold drop_row. destruct (r !! col); [| done].
  unfold gone, cell_value in *. by rewrite lookup_insert_ne.
Qed.

Lemma text_row_gone f col r : gone c r -> gone c (text_row f col r).
Proof.
  intros Hg. unfold text_row.
  destruct (is_null_or_undefined (cell_value r col)) eqn:E; [done |].
  destruct (strict_eq _ _); [done |]. apply setCell_gone; [| done].
  intros ->. by rewrite Hg in E.
Qed.

Lemma replace_row_gone col f w r : gone c r -> gone c (replace_row js col f w r).
Proof.
  intros Hg. unfold replace_row.
  destruct (is_null_or_undefined (cell_value r col)) eqn:E; [done |]. cbn [orb].
  destruct (bool_decide (f = EmptyString)); [done |].
  destruct (strict_eq _ _); [done |]. apply setCell_gone; [| done].
  intros ->. by rewrite Hg in E.
Qed.

Lemma extract_row_gone col p r : gone c r -> gone c (extract_row js col p r).
Proof.
  intros Hg. unfold extract_row.
  destruct (toDateOrNull js (cell_value r col)) eqn:E; [| done].
  destruct (date_part_value _ _ _); [| done]. apply setCell_gone; [| done].
  intros ->. by rewrite Hg in E.
Qed.

Lemma round_row_gone col factor r : gone c r -> gone c (round_row js col factor r).
Proof.
  intros Hg. unfold round_row.
  destruct (isFinite (parseNumberLike js (cell_value r col))) eqn:E; [| done].
  apply setCell_gone; [| done]. intros ->. by rewrite Hg in E.
Qed.

Lemma scale_row_gone col mn mx lo hi r :
  gone c r -> gone c (scale_row js col mn mx lo hi r).
Proof.
  intros Hg. unfold scale_row.
  destruct (isFinite (parseNumberLike js (cell_value r col))) eqn:E; [| done].
  apply setCell_gone; [| done]. intros ->. by rewrite Hg in E.
Qed.

Lemma applyAction_gone (a : CleaningAction) (st : State) :
  revives a c = false ->
  Forall (gone c) (processed st) -> Forall (gone c) (processed (applyAction js a st)).
Proof.
  unfold revives, applyAction. intros Hr Hg.
  destruct (type a) eqn:Ht; simpl in *;
    try (apply Forall_fmap; eapply Forall_impl; [exact Hg |]; intros r Hrow; simpl;
         auto using drop_other_row_gone, text_row_gone, replace_row_gone, extract_row_gone,
           round_row_gone; fail).
  - eapply Derivation.Forall_sublist; [exact Hg | apply dedupe_sublist].
  - apply bool_decide_eq_false in Hr.
    pose proof (fill_replacement_rows js st (payload a)) as Hrows.
    destruct (fill_replacement js st (payload a)) as [replacement st']. simpl in *.
    rewrite Hrows. apply Forall_fmap. eapply Forall_impl; [exact Hg |].
    intros r Hrow. by apply fill_row_gone.
  - apply bool_decide_eq_false in Hr.
    apply Forall_fmap. eapply Forall_impl; [exact Hg |].
    intros r Hrow. by apply change_type_row_gone.
  - destruct (List.filter _ _); simpl; [done |].
    apply Forall_fmap. eapply Forall_impl; [exact Hg |].
    intros r Hrow. by apply scale_row_gone.
Qed.

Lemma run_gone (actions : list CleaningAction) (st : State) :
  Forall (fun a => revives a c = false) actions ->
  Forall (gone c) (processed st) -> Forall (gone c) (processed (run js actions st)).
Proof.
  intros H. revert st. induction H as [| a actions Ha H IH]; intros st Hg; [done |].
  simpl. apply IH. by apply applyAction_gone.
Qed.

End WithHost.

(** When no fill and no type change on the column follows its drop
    step, no row of the preview has the column once flattened. *)
Lemma dropped_column_stays_absent (js : Host) (ds : DatasetLike)
    (before after : list CleaningAction) (action : CleaningAction) :
  type action = DROP_COLUMN ->
  Forall (fun a => revives a (key_of (columnName (payload action))) = false) after ->
  Forall (fun r => flatten_row r !! key_of (columnName (payload action)) = None)
    (execute js ds (before ++ action :: after)).
Proof.
  intros Ht Hafter. rewrite Flags.execute_app. simpl.
  eapply Forall_impl; [| intros r; apply gone_flatten].
  apply run_gone; [done |].
  unfold applyAction. rewrite Ht. simpl. apply Forall_fmap, Forall_forall.
  intros r _. apply drop_row_gone.
Qed.

(** C5 fails on the code: the recipe drop column [c], fill missing in
    [c] with zero, on the dataset [{c: 1}].  The fill step takes the
    deletion mark for a missing value and writes 0 over it, so the preview
    row has the key [c] again (value 0) once flattened, although [c] is
    dropped from the header of the export. *)
Theorem dropped_column_is_filled_again (js : Host) :
  Example.column_cells "c"
    (execute js (Example.one_column "c" [VNum 1])
       [Example.step "1" DROP_COLUMN (Example.on_column "c")])
  = [Some {| value := VUndefined; isChanged := true |}]
  /\ Example.column_cells "c"
       (execute js (Example.one_column "c" [VNum 1])
          [Example.step "1" DROP_COLUMN (Example.on_column "c");
           Example.step "2" FILL_MISSING (Example.fill_with "c" Zero)])
     = [Some {| value := VNum 0; isChanged := true |}]
  /\ map flatten_row
       (execute js (Example.one_column "c" [VNum 1])
          [Example.step "1" DROP_COLUMN (Example.on_column "c");
           Example.step "2" FILL_MISSING (Example.fill_with "c" Zero)])
     = [ {[ "c" := VNum 0 ]} ]
  /\ finalColumns (Example.one_column "c" [VNum 1])
       [Example.step "1" DROP_COLUMN (Example.on_column "c");
        Example.step "2" FILL_MISSING (Example.fill_with "c" Zero)]
     = [].
Proof. repeat split; vm_compute; reflexivity. Qed.

End Drop.

(** ** Outliers and correlation *)

Module Profiler.
Import Js Analytics.

Lemma z_loop_spec (m s threshold : float) (k : nat) (a : list float) (i : nat) :
  i ∈ z_loop m s threshold k a
  <-> exists j x, i = k + j /\ a !! j = Some x
                  /\ (threshold <? PrimFloat.abs ((x - m) / s))%float = true.
Proof.
  revert k. induction a as [| y a IH]; intros k; simpl.
  - split; [by intros ?%elem_of_nil | by intros (j & x & _ & ? & _)].
  - destruct (threshold <? PrimFloat.abs ((y - m) / s))%float eqn:E.
    + rewrite elem_of_cons, IH. split.
      * intros [-> | (j & x & -> & Hj & Hx)].
        -- exists 0, y. split; [lia | done].
        -- exists (S j), x. split; [lia | done].
      * intros (j & x & -> & Hj & Hx). destruct j as [| j].
        -- left. lia.
        -- right. exists j, x. split; [lia | done].
    + rewrite IH. split.
      * intros (j & x & -> & Hj & Hx). exists (S j), x. split; [lia | done].
      * intros (j & x & -> & Hj & Hx). destruct j as [| j].
        -- simpl in Hj. injection Hj as <-. congruence.
        -- exists j, x. split; [lia | done].
Qed.

Lemma sum_zeros (n : nat) : sum (repeat 0%float n) = 0%float.
Proof.
  unfold sum. induction n as [| n IH]; [done |]. simpl.
  change (0 + 0)%float with 0%float. exact IH.
Qed.

(** The deviation of a constant array vanishes when its elements equal
    their computed mean; its standard deviation is then 0 or NaN. *)
Lemma constant_stdDev_falsy (c : float) (n : nat) :
  PrimFloat.is_zero (c - mean (repeat c n)) = true ->
  falsy (stdDev (repeat c n)) = true.
Proof.
  intros Hd. unfold stdDev, variance. rewrite repeat_length.
  destruct (n <? 2)%nat; [reflexivity |].
  rewrite map_repeat. unfold square.
  rewrite (FloatFacts.zero_square _ Hd), sum_zeros.
  apply FloatFacts.falsy_sqrt_zero_div.
Qed.

(** C6, as the code has it.  [zScoreOutliers] returns no index when the
    standard deviation is 0 or NaN, which is the case with fewer than two
    values; otherwise it returns exactly the indices [i] with
    [|(a[i] - mean) / stdDev| > threshold], and [count] is their number.
    On a constant array whose elements equal their computed mean it returns
    no index whatever the threshold, for instance on [7, 7, 7, 7].
    On [10, 12, 11, 13, 1000] the largest score is about 1.79: no index is
    returned at threshold 2.5, and exactly the index of 1000 at 1.5. *)
Theorem zScoreOutliers_spec (a : list float) (threshold : float) :
  (falsy (stdDev a) = true -> zScoreOutliers a threshold = {| count := 0; idx := [] |})
  /\ (falsy (stdDev a) = false ->
      forall i, i ∈ idx (zScoreOutliers a threshold)
                <-> exists x, a !! i = Some x
                    /\ (threshold <? PrimFloat.abs ((x - mean a) / stdDev a))%float = true)
  /\ count (zScoreOutliers a threshold) = length (idx (zScoreOutliers a threshold))
  /\ (length a < 2 -> zScoreOutliers a threshold = {| count := 0; idx := [] |})
  /\ (forall c n, PrimFloat.is_zero (c - mean (repeat c n)) = true ->
      zScoreOutliers (repeat c n) threshold = {| count := 0; idx := [] |})
  /\ zScoreOutliers [7; 7; 7; 7]%float threshold = {| count := 0; idx := [] |}
  /\ zScoreOutliers [10; 12; 11; 13; 1000]%float 2.5 = {| count := 0; idx := [] |}
  /\ zScoreOutliers [10; 12; 11; 13; 1000]%float 1.5 = {| count := 1; idx := [4] |}.
Proof.
  assert (Hconst : forall c n, PrimFloat.is_zero (c - mean (repeat c n)) = true ->
            zScoreOutliers (repeat c n) threshold = {| count := 0; idx := [] |}).
  { intros c n Hd. unfold zScoreOutliers. by rewrite (constant_stdDev_falsy c n Hd). }
  split; [| split; [| split; [| split; [| split; [| split; [| split]]]]]].
  - intros H. unfold zScoreOutliers. by rewrite H.
  - intros H i. unfold zScoreOutliers. rewrite H. simpl. rewrite z_loop_spec.
    split; [intros (j & x & -> & ?); eauto | intros (x & ?); exists i, x; eauto].
  - unfold zScoreOutliers. by destruct (falsy _).
  - intros H. unfold zScoreOutliers, stdDev, variance.
    apply Nat.ltb_lt in H. rewrite H. reflexivity.
  - exact Hconst.
  - apply (Hconst 7%float 4). vm_compute. reflexivity.
  - vm_compute. reflexivity.
  - vm_compute. reflexivity.
Qed.

(** C6 fails as stated.  On [10, 12, 11, 13, 1000] with threshold 2.5
    no index is returned: the score of 1000 is about 1.79 (with five
    values no score exceeds 4 / sqrt 5).  And on the constant array
    [0.1, 0.1, 0.1] with threshold 0.5 every index is returned: the
    computed mean is 0.10000000000000002, so the deviations are not 0. *)
Lemma zScoreOutliers_examples_fail :
  idx (zScoreOutliers [10; 12; 11; 13; 1000]%float 2.5) = []
  /\ zScoreOutliers [0.1; 0.1; 0.1]%float 0.5 = {| count := 3; idx := [0; 1; 2] |}.
Proof. split; vm_compute; reflexivity. Qed.

(** C7 fails on the code.  [pearson] skips a pair with a value that is
    not finite when it sums, but still counts it in [n]: on
    x = [1, 2, NaN], y = [2, 1, 0] it returns 0.5, whereas the coefficient
    of the two finite pairs (1,2), (2,1) is -1 (what [pearson] returns on
    those pairs alone, and what the [pearson] of the data utilities
    returns); on x = [1, NaN, NaN], y = [1, 2, 3], with one finite pair, it
    returns 1 and not 0.  The entries of [correlations] drop the missing
    values of each column separately, so the pairs are no longer aligned:
    for the rows (1,1), (-,5), (2,2), (3,3) the entry is the coefficient of
    (1,1), (2,5), (3,2) and not 1. *)
Theorem pearson_counts_skipped_pairs (js : Host) :
  pearson [1; 2; PrimFloat.nan]%float [2; 1; 0]%float = 0.5%float
  /\ pearson [1; 2]%float [2; 1]%float = (-1)%float
  /\ DataUtils.pearson [1; 2; PrimFloat.nan]%float [2; 1; 0]%float = (-1)%float
  /\ pearson [1; PrimFloat.nan; PrimFloat.nan]%float [1; 2; 3]%float = 1%float
  /\ correlation js
       [ {[ "x" := VNum 1; "y" := VNum 1 ]}; {[ "y" := VNum 5 ]};
         {[ "x" := VNum 2; "y" := VNum 2 ]}; {[ "x" := VNum 3; "y" := VNum 3 ]} ]
       "x" "y"
     = Some (pearson [1; 2; 3]%float [1; 5; 2]%float)
  /\ pearson [1; 2; 3]%float [1; 2; 3]%float = 1%float
  /\ (pearson [1; 2; 3]%float [1; 5; 2]%float <? 0.25)%float = true.
Proof. repeat split; vm_compute; reflexivity. Qed.

(** On input without a value that is not finite, nothing is skipped and
    [n] is the number of pairs. *)
Lemma pearson_step_finite (acc : Sums) (xi yi : float) :
  isFiniteNumber xi = true -> isFiniteNumber yi = true ->
  pearson_step acc (xi, yi)
  = {| sx := (sx acc + xi)%float; sy := (sy acc + yi)%float;
       sxx := (sxx acc + xi * xi)%float; syy := (syy acc + yi * yi)%float;
       sxy := (sxy acc + xi * yi)%float |}.
Proof. intros Hx Hy. unfold pearson_step. by rewrite Hx, Hy. Qed.

(** With fewer than two index positions the result is 0. *)
Lemma pearson_short (x y : list float) :
  Nat.min (length x) (length y) < 2 -> pearson x y = 0%float.
Proof. intros H%Nat.ltb_lt. unfold pearson. by rewrite H. Qed.

End Profiler.

(** ** Type inference *)

Module Inference.
Import Js.

(** The rule of the data utilities: a column that is not numeric is
    categorical exactly when it has at most 50 distinct values or its
    ratio of distinct values is below 0.2; date and text come after. *)
Lemma utilities_categorical_rule (js : Host) (values : list Js.value) :
  DataUtils.detect_type js values <> numeric ->
  DataUtils.detect_type js values = categorical
  <-> (JsSet.size_of values <= 50
       \/ (num_of_nat (JsSet.size_of values) / num_of_nat (length values) <? 0.2)%float
          = true).
Proof.
  unfold DataUtils.detect_type.
  destruct (0.8 <? _)%float; [done |]. intros _.
  destruct (JsSet.size_of values <=? 50)%nat eqn:E1; simpl.
  - apply Nat.leb_le in E1. split; auto.
  - apply Nat.leb_gt in E1.
    destruct (_ <? 0.2)%float eqn:E2.
    + split; auto.
    + split; [by destruct (existsb _ _) | intros [? | ?]; [lia | done]].
Qed.

(** C8 fails on the code.  The column "a", "b", "c", "d", "a" has five
    values, four of them distinct, none of them a number.  The analyser of
    the backend classifies a column as categorical only when its distinct
    values are fewer than a tenth of its values (and more than one): it
    answers date or text here, never categorical.  The analyser of the
    data utilities follows the rule of the claim and answers categorical
    (for a runtime that does not read these texts as numbers).  The
    inference of the analytics page answers categorical for every column
    in which it saw neither a number nor a date. *)
Theorem backend_misses_categorical (js : Host) :
  Backend.detect_type js [VStr "a"; VStr "b"; VStr "c"; VStr "d"; VStr "a"]
  = (if existsb (fun val => bool_decide (is_Some (Date_parse js (ToString js val))))
          [VStr "a"; VStr "b"; VStr "c"; VStr "d"; VStr "a"]
     then date else text)
  /\ JsSet.size_of [VStr "a"; VStr "b"; VStr "c"; VStr "d"; VStr "a"] = 4
  /\ Backend.detect_type Example.host [VStr "a"; VStr "b"; VStr "c"; VStr "d"; VStr "a"]
     = text
  /\ DataUtils.detect_type Example.host [VStr "a"; VStr "b"; VStr "c"; VStr "d"; VStr "a"]
     = categorical
  /\ Analytics.infer_column Example.host
       [VStr "a"; VStr "b"; VStr "c"; VStr "d"; VStr "a"]
     = Analytics.categorical_column.
Proof. repeat split; vm_compute; reflexivity. Qed.

End Inference.

(** ** The queue holds no redundant pair *)

Module QueueFacts.
Import Js Cleaning Relations Workbench.

(** A queued step with a key is similar to any proposed step of the same
    key. *)
Lemma same_key_similar (action : ActionDraft) (a : CleaningAction) new_id k :
  step_key a = Some k ->
  step_key {| id := new_id; type := draft_type action;
              description := draft_description action;
              payload := draft_payload action |} = Some k ->
  similar_step action a = true.
Proof.
  unfold step_key, similar_step. simpl.
  destruct (truthy_name (columnName (draft_payload action))) eqn:Hd;
    destruct (truthy_name (columnName (payload a))) eqn:Ha; simpl.
  - intros [= <-] [= Ht Hc Hf]. rewrite Ht.
    rewrite (bool_decide_eq_true_2 (type a = type a)) by done. simpl.
    unfold truthy_name in Hd, Ha.
    destruct (columnName (draft_payload action)) as [c |]; [| done].
    destruct (columnName (payload a)) as [c' |]; [| done].
    simpl in Hc. subst c'. rewrite Ht in Hf.
    rewrite (bool_decide_eq_true_2 (Some c = Some c)) by done.
    destruct (bool_decide (type a = REPLACE_SUBSTRING)); simpl; [| done].
    by rewrite bool_decide_eq_true_2.
  - destruct (bool_decide (type a = REMOVE_DUPLICATES)); [| done].
    intros [= <-] [= _ Hc _]. unfold truthy_name in Hd.
    destruct (columnName (draft_payload action)) as [c |]; [| done].
    simpl in Hc. subst c. by rewrite bool_decide_eq_true_2 in Hd.
  - destruct (bool_decide (draft_type action = REMOVE_DUPLICATES)); [| done].
    intros [= <-] [= _ Hc _]. unfold truthy_name in Ha.
    destruct (columnName (payload a)) as [c |]; [| done].
    simpl in Hc. subst c. by rewrite bool_decide_eq_true_2 in Ha.
  - destruct (decide (type a = REMOVE_DUPLICATES)) as [Hta | Hta];
      [rewrite (bool_decide_eq_true_2 _ Hta) | by rewrite (bool_decide_eq_false_2 _ Hta)].
    destruct (decide (draft_type action = REMOVE_DUPLICATES)) as [Htd | Htd];
      [rewrite (bool_decide_eq_true_2 _ Htd) | by rewrite (bool_decide_eq_false_2 _ Htd)].
    intros _ _. rewrite Hta, Htd. by rewrite !bool_decide_eq_true_2.
Qed.

Lemma handleAddAction_keys new_id actions action :
  NoDup (omap step_key actions) ->
  NoDup (omap step_key (handleAddAction new_id actions action).1).
Proof.
  intros Hnd. unfold handleAddAction.
  destruct (isRedundant actions action) eqn:Hr; simpl; [done |].
  rewrite omap_app. simpl.
  destruct (step_key _) as [k |] eqn:Hk; [| by rewrite app_nil_r].
  apply NoDup_app. split; [done |]. split; [| apply NoDup_singleton].
  intros x Hx ->%list_elem_of_singleton.
  apply list_elem_of_omap in Hx as (a & Hin & Ha).
  assert (isRedundant actions action = true) as Hyes; [| congruence].
  unfold isRedundant. apply existsb_exists. exists a.
  split; [by apply list_elem_of_In | by eapply same_key_similar].
Qed.

Lemma step_keys_filter (p : CleaningAction -> bool) (actions : list CleaningAction) :
  omap step_key (List.filter p actions) `sublist_of` omap step_key actions.
Proof.
  induction actions as [| a actions IH]; simpl; [done |].
  destruct (p a); simpl; destruct (step_key a);
    first [exact IH | by constructor].
Qed.

(** However steps are proposed, removed and reordered, the queue never
    holds two steps that the redundancy check compares equal: no two steps
    of one kind on one column (for a substring replace: with one find
    text), and at most one duplicate removal without a column.  And each
    such step, proposed again, is rejected. *)
Theorem queue_has_no_redundant_pair (actions : list CleaningAction) :
  reachable actions ->
  NoDup (omap step_key actions)
  /\ (forall a new_id, a ∈ actions -> is_Some (step_key a) ->
      handleAddAction new_id actions (draft_of a)
      = (actions,
         toast_error ("A similar " +:+ dquote +:+ description a +:+ dquote
                      +:+ " step already exists."))).
Proof.
  intros Hr. split.
  - induction Hr as [| new_id actions action _ IH _ | i actions _ IH
                     | actions actions' _ IH Hp].
    + constructor.
    + by apply handleAddAction_keys.
    + eapply sublist_NoDup; [exact IH | apply step_keys_filter].
    + by rewrite <- Hp.
  - intros a new_id Hin [k Hk]. unfold handleAddAction.
    assert (isRedundant actions (draft_of a) = true) as ->; [| done].
    unfold isRedundant. apply existsb_exists. exists a.
    split; [by apply list_elem_of_In |].
    apply (same_key_similar (draft_of a) a new_id k Hk).
    unfold step_key in *. by simpl.
Qed.

Lemma queue_has_no_redundant_pair_witness :
  NoDup
    (omap step_key
       (handleAddAction "2"
          (handleAddAction "1" []
             {| draft_type := FILL_MISSING; draft_description := "Fill age";
                draft_payload := Example.fill_with "age" Zero |}).1
          {| draft_type := REMOVE_DUPLICATES; draft_description := "Remove duplicate rows";
             draft_payload := Example.no_payload |}).1).
Proof.
  refine (proj1 (queue_has_no_redundant_pair _ _)).
  apply reachable_add; [apply reachable_add; [apply reachable_empty |] |].
  - right. by eexists.
  - by left.
Defined.

End QueueFacts.

(** ** What a step leaves alone, and what it guarantees *)

Module StepFacts.
Import Js Cleaning Relations Derivation Steps Workbench.

Lemma same_elsewhere_refl col (r : PreviewRow) : same_elsewhere col r r.
Proof. by intros k _. Qed.

Lemma setCell_elsewhere col v (r : PreviewRow) : same_elsewhere col r (setCell r col v).
Proof. intros k Hk. by apply setCell_lookup_ne. Qed.

Create HintDb frame.
#[local] Hint Resolve same_elsewhere_refl setCell_elsewhere : frame.

Section WithHost.
Context (js : Host).

Lemma fill_row_elsewhere col v r : same_elsewhere col r (fill_row col v r).
Proof. unfold fill_row. destruct (r !! col); [destruct (isNullish _) |]; auto with frame. Qed.

Lemma change_type_row_elsewhere col t r : same_elsewhere col r (change_type_row js col t r).
Proof. unfold change_type_row. destruct (r !! col); auto with frame. Qed.

Lemma drop_row_elsewhere col r : same_elsewhere col r (drop_row col r).
Proof.
  unfold drop_row. destruct (r !! col); [| auto with frame].
  intros k Hk. by rewrite lookup_insert_ne.
Qed.

Lemma text_row_elsewhere f col r : same_elsewhere col r (text_row f col r).
Proof.
  unfold text_row. destruct (is_null_or_undefined _); [auto with frame |].
  destruct (strict_eq _ _); auto with frame.
Qed.

Lemma replace_row_elsewhere col f w r : same_elsewhere col r (replace_row js col f w r).
Proof.
  unfold replace_row. destruct (_ || _); [auto with frame |].
  destruct (strict_eq _ _); auto with frame.
Qed.

Lemma extract_row_elsewhere col p r : same_elsewhere col r (extract_row js col p r).
Proof.
  unfold extract_row. destruct (toDateOrNull _ _); [| auto with frame].
  destruct (date_part_value _ _ _); auto with frame.
Qed.

Lemma round_row_elsewhere col factor r : same_elsewhere col r (round_row js col factor r).
Proof. unfold round_row. destruct (isFinite _); auto with frame. Qed.

Lemma scale_row_elsewhere col mn mx lo hi r :
  same_elsewhere col r (scale_row js col mn mx lo hi r).
Proof. unfold scale_row. destruct (isFinite _); auto with frame. Qed.

End WithHost.

(** A step reads and writes one column: the rows after the step derive
    from the rows before it (a duplicate removal removes rows, no other
    step does), and in every row each cell of another column is the cell
    it was, value and flag. *)
Theorem step_touches_only_its_column (js : Host) (action : CleaningAction) (st : State) :
  derives (same_elsewhere (key_of (columnName (payload action))))
    (processed st) (processed (applyAction js action st)).
Proof.
  unfold applyAction.
  destruct (type action); simpl;
    try (apply derives_map; intros r;
         auto using change_type_row_elsewhere, drop_row_elsewhere, text_row_elsewhere,
           replace_row_elsewhere, extract_row_elsewhere, round_row_elsewhere; fail).
  - apply derives_sublist; [apply same_elsewhere_refl | apply dedupe_sublist].
  - pose proof (fill_replacement_rows js st (payload action)) as Hrows.
    destruct (fill_replacement js st (payload action)) as [replacement st'].
    simpl in *. rewrite Hrows. apply derives_map. intros r. apply fill_row_elsewhere.
  - destruct (List.filter _ _); simpl.
    + apply derives_sublist; [apply same_elsewhere_refl | done].
    + apply derives_map. intros r. apply scale_row_elsewhere.
Qed.

Lemma applyAction_length (js : Host) (action : CleaningAction) (st : State) :
  type action <> REMOVE_DUPLICATES ->
  length (processed (applyAction js action st)) = length (processed st).
Proof.
  intros Hne. unfold applyAction.
  destruct (type action); simpl; try by rewrite length_map.
  - done.
  - pose proof (fill_replacement_rows js st (payload action)) as Hrows.
    destruct (fill_replacement js st (payload action)) as [replacement st'].
    simpl in *. by rewrite length_map, Hrows.
  - destruct (List.filter _ _); simpl; [done | by rewrite length_map].
Qed.

(** The preview never has more rows than the dataset, and has as many
    when the recipe holds no duplicate removal. *)
Theorem preview_row_count (js : Host) (ds : DatasetLike) (actions : list CleaningAction) :
  length (execute js ds actions) <= length (data ds)
  /\ (Forall (fun a => type a <> REMOVE_DUPLICATES) actions ->
      length (execute js ds actions) = length (data ds)).
Proof.
  split.
  - assert (H : derives (fun _ _ => True) (initial_rows ds) (execute js ds actions)).
    { unfold execute. apply (run_derives js); [done |].
      apply derives_sublist; [done | done]. }
    destruct H as (kept & Hsub & HF).
    apply Forall2_length in HF. apply sublist_length in Hsub.
    unfold initial_rows in Hsub. rewrite length_map in Hsub. lia.
  - intros H. unfold execute.
    assert (Hgen : forall st, length (processed (run js actions st)) = length (processed st)).
    { induction H as [| a actions Ha H IH]; intros st; [done |].
      simpl. rewrite IH. by apply applyAction_length. }
    rewrite Hgen. unfold initial, initial_rows. simpl. by rewrite length_map.
Qed.

End StepFacts.

Module Guarantees.
Import Js Cleaning Relations Derivation Steps Workbench.

(** *** Fill missing *)

Lemma fill_row_filled col v (r : PreviewRow) c :
  isNullish v = false -> fill_row col v r !! col = Some c -> isNullish (value c) = false.
Proof.
  intros Hv. unfold fill_row. destruct (r !! col) as [cell |] eqn:E.
  - destruct (isNullish (value cell)) eqn:Hn.
    + rewrite (setCell_lookup _ _ _ _ E). by intros [= <-].
    + rewrite E. by intros [= <-].
  - by rewrite E.
Qed.

(** After a fill step whose replacement is not itself a missing value
    (always so for the zero, mean and median strategies), no row has a
    missing cell in the column. *)
Theorem fill_leaves_no_missing_cell (js : Host) (action : CleaningAction) (st : State) :
  type action = FILL_MISSING ->
  (default Zero (strategy (payload action)) = Custom ->
   isNullish (customValue (payload action)) = false) ->
  Forall
    (fun r => forall c, r !! key_of (columnName (payload action)) = Some c ->
                        isNullish (value c) = false)
    (processed (applyAction js action st)).
Proof.
  intros Ht Hcustom. unfold applyAction. rewrite Ht.
  assert (Hv : isNullish (fill_replacement js st (payload action)).1 = false).
  { unfold fill_replacement, ensureNumericCache.
    destruct (default Zero (strategy (payload action))); simpl; auto;
      by destruct (numericCache st !! _). }
  destruct (fill_replacement js st (payload action)) as [replacement st'].
  simpl in *. apply Forall_fmap, Forall_forall. intros r _ c. by apply fill_row_filled.
Qed.

Lemma fill_leaves_no_missing_cell_witness :
  Forall
    (fun r => forall c, r !! "age" = Some c -> isNullish (value c) = false)
    (processed
       (applyAction Example.host
          (Example.step "1" FILL_MISSING (Example.fill_with "age" Median))
          (initial (Example.one_column "age" [VNum 10; VNull; VStr EmptyString])))).
Proof.
  refine (fill_leaves_no_missing_cell Example.host
            (Example.step "1" FILL_MISSING (Example.fill_with "age" Median))
            (initial (Example.one_column "age" [VNum 10; VNull; VStr EmptyString]))
            eq_refl _).
  simpl. discriminate.
Defined.

(** *** Change type *)

Lemma change_type_value_shape (js : Host) (t : NewType) (v : Js.value) :
  of_new_type t (change_type_value js (Some t) v) = true.
Proof.
  destruct t; simpl.
  - by destruct (is_null_or_undefined v).
  - by destruct (isFinite (parseNumberLike js v)).
  - by destruct (isFinite (parseNumberLike js v)) eqn:E.
  - by destruct (toDateOrNull js v).
  - done.
Qed.

(** After a type change, every cell of the column holds a value of the
    requested type: a text for Text, a boolean for Boolean, a number or
    null for Integer, a finite number or null for Float, a valid date or
    null for Date.  A value that cannot be converted leaves null, never
    NaN. *)
Theorem change_type_gives_the_type (js : Host) (action : CleaningAction) (t : NewType)
    (st : State) :
  type action = CHANGE_TYPE ->
  newType (payload action) = Some t ->
  Forall
    (fun r => forall c, r !! key_of (columnName (payload action)) = Some c ->
                        of_new_type t (value c) = true)
    (processed (applyAction js action st)).
Proof.
  intros Ht Hn. unfold applyAction. rewrite Ht, Hn. simpl.
  apply Forall_fmap, Forall_forall. intros r _ c.
  unfold change_type_row. destruct (r !! _) as [cell |] eqn:E.
  - rewrite (setCell_lookup _ _ _ _ E). intros [= <-]. simpl.
    apply change_type_value_shape.
  - by rewrite E.
Qed.

Lemma change_type_gives_the_type_witness :
  Forall
    (fun r => forall c, r !! key_of (columnName (payload to_float_step)) = Some c ->
                        of_new_type Float (value c) = true)
    (processed
       (applyAction Example.host to_float_step
          (initial (Example.one_column "n" [VNum 1.5; VNum PrimFloat.infinity; VNull])))).
Proof.
  exact (change_type_gives_the_type Example.host to_float_step Float
           (initial (Example.one_column "n" [VNum 1.5; VNum PrimFloat.infinity; VNull]))
           eq_refl eq_refl).
Defined.

(** *** Replace with an empty find text *)

(** A substring replace whose find text is empty does nothing: taking it
    out of the recipe, wherever it stands, leaves the preview as it is. *)
Theorem empty_find_step_is_void (js : Host) (ds : DatasetLike)
    (before after : list CleaningAction) (action : CleaningAction) :
  type action = REPLACE_SUBSTRING ->
  find (payload action) = Some EmptyString ->
  preview js (Some ds) (before ++ action :: after) = preview js (Some ds) (before ++ after).
Proof.
  intros Ht Hf.
  assert (Hvoid : forall st, applyAction js action st = st).
  { intros [rows cache]. unfold applyAction, with_rows. rewrite Ht, Hf. simpl. f_equal.
    induction rows as [| r rows IH]; simpl; [done |]. rewrite IH. f_equal.
    unfold replace_row. by rewrite orb_true_r. }
  unfold preview, execute, run. rewrite !fold_left_app. simpl. by rewrite Hvoid.
Qed.

Lemma empty_find_step_is_void_witness :
  preview Example.host (Some (Example.one_column "n" [VStr "a,b"]))
    ([] ++ empty_find_step :: [Example.step "2" UPPERCASE (Example.on_column "n")])
  = preview Example.host (Some (Example.one_column "n" [VStr "a,b"]))
      ([] ++ [Example.step "2" UPPERCASE (Example.on_column "n")]).
Proof.
  exact (empty_find_step_is_void Example.host (Example.one_column "n" [VStr "a,b"]) []
           [Example.step "2" UPPERCASE (Example.on_column "n")] empty_find_step
           eq_refl eq_refl).
Defined.

(** *** The text steps *)

Lemma text_row_twice (js : Host) (g : string -> string) col (r : PreviewRow) :
  (forall s, g (g s) = g s) ->
  let f := fun v => if is_null_or_undefined v then v else VStr (g (ToString js v)) in
  text_row f col (text_row f col r) = text_row f col r.
Proof.
  intros Hg f.
  destruct (is_null_or_undefined (cell_value r col)) eqn:E.
  { assert (text_row f col r = r) as ->; unfold text_row; by rewrite E. }
  destruct (strict_eq (f (cell_value r col)) (cell_value r col)) eqn:Es.
  { assert (text_row f col r = r) as ->; unfold text_row; by rewrite E, Es. }
  assert (Hrow : text_row f col r = setCell r col (VStr (g (ToString js (cell_value r col))))).
  { unfold text_row. rewrite E, Es. unfold f. by rewrite E. }
  rewrite Hrow. unfold text_row.
  assert (Hc : cell_value (setCell r col (VStr (g (ToString js (cell_value r col))))) col
               = VStr (g (ToString js (cell_value r col)))).
  { unfold setCell, cell_value at 1. by rewrite lookup_insert_eq. }
  rewrite Hc. unfold f. simpl. rewrite Hg.
  by rewrite bool_decide_eq_true_2.
Qed.

(** A text step (trim, lowercase, uppercase, strip, capitalize) run
    twice in a row gives what it gives run once, provided the text function
    of the runtime gives its own results back unchanged. *)
Theorem text_step_twice_is_once (js : Host) (action : CleaningAction)
    (g : string -> string) (st : State) :
  text_function js (type action) = Some g ->
  (forall s, g (g s) = g s) ->
  applyAction js action (applyAction js action st) = applyAction js action st.
Proof.
  intros Hf Hg. unfold applyAction.
  destruct (type action); simpl in Hf; try discriminate; injection Hf as <-; simpl;
    unfold with_rows; simpl; f_equal; rewrite map_map; apply map_ext; intros r;
    apply (text_row_twice js _ _ r Hg).
Qed.

Lemma ascii_lower_twice (c : ascii) :
  Example.ascii_lower (Example.ascii_lower c) = Example.ascii_lower c.
Proof. destruct c as [[] [] [] [] [] [] [] []]; reflexivity. Qed.

Lemma lower_twice (s : string) :
  Example.map_string Example.ascii_lower (Example.map_string Example.ascii_lower s)
  = Example.map_string Example.ascii_lower s.
Proof. induction s as [| c s IH]; simpl; [done |]. by rewrite ascii_lower_twice, IH. Qed.

Lemma text_step_twice_is_once_witness :
  applyAction Example.host (Example.step "1" LOWERCASE (Example.on_column "n"))
    (applyAction Example.host (Example.step "1" LOWERCASE (Example.on_column "n"))
       (initial (Example.one_column "n" [VStr "Ab"; VNull; VBool true])))
  = applyAction Example.host (Example.step "1" LOWERCASE (Example.on_column "n"))
      (initial (Example.one_column "n" [VStr "Ab"; VNull; VBool true])).
Proof.
  exact (text_step_twice_is_once Example.host
           (Example.step "1" LOWERCASE (Example.on_column "n"))
           (Example.map_string Example.ascii_lower) _ eq_refl lower_twice).
Defined.

End Guarantees.

(** ** Removing duplicates *)

Module DedupeFacts.
Import Js Cleaning Relations Derivation Steps Workbench.

Section WithHost.
Context (js : Host).

Lemma dedupe_keys (seen : gset string) (rows : list PreviewRow) (k : string) :
  k ∈ map (row_key js) (dedupe js seen rows) <-> k ∈ map (row_key js) rows /\ k ∉ seen.
Proof.
  revert seen. induction rows as [| r rows IH]; intros seen; simpl.
  - split; [by intros ?%elem_of_nil | by intros [?%elem_of_nil _]].
  - fold (row_key js r). destruct (decide (row_key js r ∈ seen)) as [Hin | Hout].
    + rewrite IH, elem_of_cons. split; [intros [? ?]; auto |].
      intros [[-> | ?] ?]; [done | auto].
    + simpl. rewrite !elem_of_cons, IH. split.
      * intros [-> | [? Hk]]; [auto |]. split; [auto |].
        intros ?. apply Hk, elem_of_union. by right.
      * intros [[-> | ?] ?]; [auto |].
        destruct (decide (k = row_key js r)) as [-> | Hne]; [auto |].
        right. split; [done |].
        intros [?%elem_of_singleton | ?]%elem_of_union; done.
Qed.

Lemma dedupe_NoDup (seen : gset string) (rows : list PreviewRow) :
  NoDup (map (row_key js) (dedupe js seen rows)).
Proof.
  revert seen. induction rows as [| r rows IH]; intros seen; simpl; [constructor |].
  fold (row_key js r). destruct (decide (row_key js r ∈ seen)); [apply IH |].
  simpl. constructor; [| apply IH].
  rewrite dedupe_keys. intros [_ Hk]. apply Hk, elem_of_union. left.
  by apply elem_of_singleton.
Qed.

Lemma dedupe_fixed (seen : gset string) (rows : list PreviewRow) :
  NoDup (map (row_key js) rows) ->
  (forall k, k ∈ map (row_key js) rows -> k ∉ seen) ->
  dedupe js seen rows = rows.
Proof.
  revert seen. induction rows as [| r rows IH]; intros seen Hnd Hout; simpl; [done |].
  simpl in Hnd. apply NoDup_cons in Hnd as [Hr Hnd].
  fold (row_key js r). destruct (decide (row_key js r ∈ seen)) as [Hin | _].
  - exfalso. apply (Hout (row_key js r)); [by left | done].
  - f_equal. apply IH; [done |]. intros k Hk.
    assert (k ∉ seen) by (apply Hout; by right).
    assert (k <> row_key js r) by (by intros ->).
    intros [?%elem_of_singleton | ?]%elem_of_union; done.
Qed.

Lemma dedupe_first (seen : gset string) (l1 l2 : list PreviewRow) (r : PreviewRow) :
  row_key js r ∉ seen -> row_key js r ∉ map (row_key js) l1 ->
  r ∈ dedupe js seen (l1 ++ r :: l2).
Proof.
  revert seen. induction l1 as [| x l1 IH]; intros seen Hs Hl; simpl.
  - fold (row_key js r). destruct (decide (row_key js r ∈ seen)); [done | by left].
  - simpl in Hl. apply not_elem_of_cons in Hl as [Hne Hl].
    fold (row_key js x). destruct (decide (row_key js x ∈ seen)); [by apply IH |].
    right. apply IH; [| done].
    intros [?%elem_of_singleton | ?]%elem_of_union; [| done].
    apply Hne. by f_equal.
Qed.

Lemma stableKey_flatten (r : PreviewRow) :
  skips_undefined js -> stableKey js (flatten_row r) = row_key js r.
Proof.
  intros Hskip. unfold row_key, stableKey. rewrite (Hskip (_ <$> (value <$> r))).
  f_equal. apply map_eq. intros k.
  unfold flatten_row. rewrite lookup_fmap, !lookup_omap, !lookup_fmap.
  destruct (r !! k) as [c |]; simpl; [| done]. by destruct (value c).
Qed.

End WithHost.

(** A duplicate removal keeps, in their order, the rows that are the
    first with their key: the rows left have pairwise distinct keys, every
    key of a row before the step is the key of a row left, and a row with
    no earlier row of its key is left. *)
Theorem remove_duplicates_keeps_first_rows (js : Host) (action : CleaningAction)
    (st : State) :
  type action = REMOVE_DUPLICATES ->
  processed (applyAction js action st) `sublist_of` processed st
  /\ NoDup (map (row_key js) (processed (applyAction js action st)))
  /\ (forall k, k ∈ map (row_key js) (processed (applyAction js action st))
                <-> k ∈ map (row_key js) (processed st))
  /\ (forall l1 r l2, processed st = l1 ++ r :: l2 ->
      row_key js r ∉ map (row_key js) l1 ->
      r ∈ processed (applyAction js action st)).
Proof.
  intros Ht. unfold applyAction. rewrite Ht. simpl.
  split; [apply dedupe_sublist |]. split; [apply dedupe_NoDup |]. split.
  - intros k. rewrite dedupe_keys. split; [by intros [? _] |].
    intros ?. split; [done | apply not_elem_of_empty].
  - intros l1 r l2 -> Hl. apply dedupe_first; [apply not_elem_of_empty | done].
Qed.

Lemma remove_duplicates_keeps_first_rows_witness :
  processed
    (applyAction Example.host (Example.step "1" REMOVE_DUPLICATES Example.no_payload)
       (initial (Example.one_column "x" [VNum 1; VNum 1; VNum 3])))
  `sublist_of` processed (initial (Example.one_column "x" [VNum 1; VNum 1; VNum 3])).
Proof.
  exact (proj1 (remove_duplicates_keeps_first_rows Example.host
                  (Example.step "1" REMOVE_DUPLICATES Example.no_payload)
                  (initial (Example.one_column "x" [VNum 1; VNum 1; VNum 3])) eq_refl)).
Defined.

(** A duplicate removal right after a duplicate removal removes
    nothing. *)
Theorem remove_duplicates_twice_is_once (js : Host) (action : CleaningAction) (st : State) :
  type action = REMOVE_DUPLICATES ->
  applyAction js action (applyAction js action st) = applyAction js action st.
Proof.
  intros Ht. unfold applyAction. rewrite Ht. simpl. unfold with_rows. simpl. f_equal.
  apply dedupe_fixed; [apply dedupe_NoDup |]. intros k _. apply not_elem_of_empty.
Qed.

Lemma remove_duplicates_twice_is_once_witness :
  applyAction Example.host (Example.step "1" REMOVE_DUPLICATES Example.no_payload)
    (applyAction Example.host (Example.step "1" REMOVE_DUPLICATES Example.no_payload)
       (initial (Example.one_column "x" [VNum 1; VNum 1; VNum 3])))
  = applyAction Example.host (Example.step "1" REMOVE_DUPLICATES Example.no_payload)
      (initial (Example.one_column "x" [VNum 1; VNum 1; VNum 3])).
Proof.
  exact (remove_duplicates_twice_is_once Example.host
           (Example.step "1" REMOVE_DUPLICATES Example.no_payload)
           (initial (Example.one_column "x" [VNum 1; VNum 1; VNum 3])) eq_refl).
Defined.

(** When the recipe ends with a duplicate removal, the preview counts no
    duplicate row (for a runtime whose JSON leaves out the properties that
    are undefined, as JSON does). *)
Theorem no_duplicates_counted_after_removal (js : Host) (ds : DatasetLike)
    (before : list CleaningAction) (action : CleaningAction) :
  skips_undefined js ->
  type action = REMOVE_DUPLICATES ->
  dups (stats (preview js (Some ds) (before ++ [action]))) = 0.
Proof.
  intros Hskip Ht. unfold preview. simpl.
  rewrite Flags.execute_app. simpl.
  set (st := run js before (initial ds)).
  rewrite map_map.
  rewrite (map_ext _ (row_key js)) by (intros r; by apply stableKey_flatten).
  rewrite size_list_to_set.
  - rewrite !length_map. lia.
  - unfold applyAction. rewrite Ht. simpl. apply dedupe_NoDup.
Qed.

Lemma no_duplicates_counted_after_removal_witness :
  dups (stats (preview Example.host (Some (Example.one_column "x" [VNum 1; VNum 1; VNum 3]))
                 ([] ++ [Example.step "1" REMOVE_DUPLICATES Example.no_payload])))
  = 0.
Proof.
  refine (no_duplicates_counted_after_removal Example.host
            (Example.one_column "x" [VNum 1; VNum 1; VNum 3]) []
            (Example.step "1" REMOVE_DUPLICATES Example.no_payload) _ eq_refl).
  intros m. reflexivity.
Defined.

End DedupeFacts.

(** ** Committing and exporting the preview *)

Module CommitFacts.
Import Js Cleaning Relations Workbench.

Lemma flatten_row_defined (r : PreviewRow) (k : string) :
  flatten_row r !! k <> Some VUndefined.
Proof.
  unfold flatten_row. rewrite lookup_omap.
  destruct (r !! k) as [c |]; simpl; [| done]. by destruct (value c).
Qed.

(** Wrapping a flattened row into fresh cells and flattening it again
    gives the flattened row. *)
Lemma flatten_row_wrap (r : PreviewRow) :
  flatten_row ((fun v => {| value := v; isChanged := false |}) <$> flatten_row r)
  = flatten_row r.
Proof.
  apply map_eq. intros k. unfold flatten_row at 1. rewrite lookup_omap, lookup_fmap.
  pose proof (flatten_row_defined r k) as Hd.
  destruct (flatten_row r !! k) as [v |]; simpl; [| done]. by destruct v.
Qed.

Lemma dropped_names (actions : list CleaningAction) (n : string) :
  Some n ∈ List.filter (fun n => truthy_name n)
             (map (fun action => columnName (payload action))
                (List.filter (fun action => bool_decide (type action = DROP_COLUMN)) actions))
  <-> n ∈ droppedColumns actions.
Proof.
  rewrite Drop.droppedColumns_spec, list_elem_of_In, filter_In, in_map_iff. split.
  - intros [(a & Hn & [Hin Ht%bool_decide_eq_true]%filter_In) Htruthy].
    unfold truthy_name in Htruthy. apply negb_true_iff, bool_decide_eq_false in Htruthy.
    split; [done |]. exists a. by rewrite list_elem_of_In.
  - intros (Hn & a & Hin & Ht & Hc). split.
    + exists a. split; [done |]. apply filter_In. split; [by apply list_elem_of_In |].
      by apply bool_decide_eq_true.
    + unfold truthy_name. by apply negb_true_iff, bool_decide_eq_false.
Qed.

Lemma handleApplyChanges_columns (js : Host) (ds : DatasetLike)
    (actions : list CleaningAction) (ds' : DatasetLike) (queue : list CleaningAction) :
  handleApplyChanges js (Some ds) actions = Some (ds', queue) ->
  map name (columns ds') = finalColumns ds actions
  /\ data ds' = map flatten_row (execute js ds actions).
Proof.
  intros H. injection H as <- _. simpl. split; [| done].
  unfold finalColumns. f_equal. apply filter_ext. intros col. f_equal.
  apply bool_decide_ext, dropped_names.
Qed.

(** Applying the recipe empties the queue and commits the flattened
    preview: the columns of the new dataset are the columns of the export
    header, its rows are the flattened rows of the preview, and the preview
    of the new dataset under the empty recipe shows these rows with no cell
    flagged. *)
Theorem apply_commits_the_preview (js : Host) (ds : DatasetLike)
    (actions : list CleaningAction) :
  exists ds',
    handleApplyChanges js (Some ds) actions = Some (ds', [])
    /\ map name (columns ds') = finalColumns ds actions
    /\ data ds' = map flatten_row (execute js ds actions)
    /\ map flatten_row (execute js ds' []) = data ds'
    /\ Forall (map_Forall (fun _ cell => isChanged cell = false)) (execute js ds' []).
Proof.
  eexists. split; [reflexivity |].
  split; [by eapply handleApplyChanges_columns |].
  split; [by eapply handleApplyChanges_columns |]. simpl. split.
  - unfold execute, initial, initial_rows. simpl. rewrite !map_map.
    apply map_ext. intros r. apply flatten_row_wrap.
  - unfold execute, initial, initial_rows. simpl. apply Forall_forall. intros r Hr.
    apply list_elem_of_In, in_map_iff in Hr as (m & <- & _).
    intros k cell Hk. rewrite lookup_fmap in Hk.
    destruct (m !! k); simpl in Hk; [| done]. by injection Hk as <-.
Qed.

(** The header of the export lists, in the order of the dataset, the
    columns that no drop step names; a drop step with the empty name drops
    nothing. *)
Theorem export_header_spec (ds : DatasetLike) (actions : list CleaningAction) :
  finalColumns ds actions `sublist_of` map name (columns ds)
  /\ forall c,
       c ∈ finalColumns ds actions
       <-> c ∈ map name (columns ds)
           /\ (c = EmptyString
               \/ forall a, a ∈ actions -> type a = DROP_COLUMN ->
                  columnName (payload a) <> Some c).
Proof.
  split.
  - unfold finalColumns. induction (columns ds) as [| col cols IH]; simpl; [done |].
    destruct (negb _); simpl; [by apply sublist_skip | by apply sublist_cons].
  - intros c. rewrite Drop.finalColumns_spec, Drop.droppedColumns_spec. split.
    + intros [Hin Hnot]. split; [done |].
      destruct (decide (c = EmptyString)) as [-> | Hne]; [by left | right].
      intros a Ha Ht Hc. apply Hnot. eauto.
    + intros [Hin Hcases]. split; [done |].
      intros (Hne & a & Ha & Ht & Hc). destruct Hcases as [-> | Hall]; [done |].
      by apply (Hall a).
Qed.

(** A column dropped by a step with a non-empty column name is in the
    header of neither the export nor the committed dataset, and when no fill
    and no type change on the column follows the drop step, no committed row
    has the column either. *)
Theorem dropped_column_leaves_the_result (js : Host) (ds : DatasetLike)
    (before after : list CleaningAction) (action : CleaningAction) (c : string) :
  type action = DROP_COLUMN ->
  columnName (payload action) = Some c ->
  c <> EmptyString ->
  Forall (fun a => revives a c = false) after ->
  forall ds' queue,
    handleApplyChanges js (Some ds) (before ++ action :: after) = Some (ds', queue) ->
    (c ∉ finalColumns ds (before ++ action :: after))
    /\ (c ∉ map name (columns ds'))
    /\ Forall (fun row => row !! c = None) (data ds').
Proof.
  intros Ht Hc Hne Hafter ds' queue Happly.
  apply handleApplyChanges_columns in Happly as [Hcols Hdata].
  assert (Hhead : c ∉ finalColumns ds (before ++ action :: after)).
  { rewrite Drop.finalColumns_spec, Drop.droppedColumns_spec. intros [_ Hnot].
    apply Hnot. split; [done |]. exists action. split; [| done].
    apply elem_of_app. right. by left. }
  split; [done |]. split; [by rewrite Hcols |].
  rewrite Hdata. apply Forall_fmap.
  pose proof (Drop.dropped_column_stays_absent js ds before after action Ht) as Hrows.
  rewrite Hc in Hrows. simpl in Hrows. by apply Hrows.
Qed.

Lemma execute_empty (js : Host) (ds : DatasetLike) (actions : list CleaningAction) :
  data ds = [] -> execute js ds actions = [].
Proof.
  intros Hd.
  assert (H : derives (fun _ _ => True) (initial_rows ds) (execute js ds actions)).
  { unfold execute. apply (Steps.run_derives js); [done |].
    apply Derivation.derives_sublist; [done | done]. }
  destruct H as (kept & Hsub & HF). unfold initial_rows in Hsub. rewrite Hd in Hsub.
  simpl in Hsub. assert (kept = []) as -> by by apply sublist_nil_r.
  by apply Forall2_nil_inv_l in HF.
Qed.

(** The export of a dataset without rows is the header line alone: the
    columns that no drop step names, comma separated. *)
Theorem export_of_no_rows_is_the_header (js : Host) (ds : DatasetLike)
    (actions : list CleaningAction) :
  data ds = [] ->
  exportCSV js ds actions
  = join "," (map (fun c => escape js (VStr c)) (finalColumns ds actions)).
Proof.
  intros Hd. unfold exportCSV, objectsToCSV. by rewrite (execute_empty js ds actions Hd).
Qed.

Lemma export_of_no_rows_is_the_header_witness :
  exportCSV Example.host
    {| columns := [ {| name := "a" |}; {| name := "b" |} ]; data := [] |}
    [Example.step "1" DROP_COLUMN (Example.on_column "a")]
  = join ","
      (map (fun c => escape Example.host (VStr c))
         (finalColumns {| columns := [ {| name := "a" |}; {| name := "b" |} ]; data := [] |}
            [Example.step "1" DROP_COLUMN (Example.on_column "a")])).
Proof.
  exact (export_of_no_rows_is_the_header Example.host
           {| columns := [ {| name := "a" |}; {| name := "b" |} ]; data := [] |}
           [Example.step "1" DROP_COLUMN (Example.on_column "a")] eq_refl).
Defined.

Lemma dropped_column_leaves_the_result_witness :
  ("c" ∉ finalColumns (Example.one_column "c" [VNum 1])
           ([] ++ Example.step "1" DROP_COLUMN (Example.on_column "c")
               :: [Example.step "2" UPPERCASE (Example.on_column "c")]))
  /\ ("c" ∉ map name (columns {| columns := []; data := [∅] |}))
  /\ Forall (fun row : gmap string Js.value => row !! "c" = None)
       (data {| columns := []; data := [∅] |}).
Proof.
  refine (dropped_column_leaves_the_result Example.host (Example.one_column "c" [VNum 1])
            [] [Example.step "2" UPPERCASE (Example.on_column "c")]
            (Example.step "1" DROP_COLUMN (Example.on_column "c")) "c"
            eq_refl eq_refl _ _ {| columns := []; data := [∅] |} [] _).
  - discriminate.
  - repeat constructor.
  - vm_compute. reflexivity.
Defined.

End CommitFacts.

(** ** The fields of the CSV export *)

Module CsvFacts.
Import Js Cleaning.

Lemma length_append (s t : string) :
  String.length (s +:+ t) = String.length s + String.length t.
Proof. induction s as [| c s IH]; simpl; [done | by rewrite IH]. Qed.

Lemma append_inj_r (x s t : string) : s +:+ x = t +:+ x -> s = t.
Proof.
  revert t. induction s as [| c s IH]; intros [| d t] H.
  - done.
  - apply (f_equal String.length) in H. rewrite !length_append in H. simpl in H. lia.
  - apply (f_equal String.length) in H. rewrite !length_append in H. simpl in H. lia.
  - simpl in H. injection H as -> H. f_equal. by apply IH.
Qed.

Lemma double_quotes_inj (s t : string) : double_quotes s = double_quotes t -> s = t.
Proof.
  revert t. induction s as [| c s IH]; intros [| d t] H; simpl in H.
  - done.
  - by destruct (bool_decide (d = _)).
  - by destruct (bool_decide (c = _)).
  - destruct (bool_decide (c = _)) eqn:Ec, (bool_decide (d = _)) eqn:Ed.
    + injection H as -> H. f_equal. by apply IH.
    + injection H as -> _. by rewrite Ec in Ed.
    + injection H as -> _. by rewrite Ec in Ed.
    + injection H as -> H. f_equal. by apply IH.
Qed.

(** The field written for a text decides the text: two texts with the
    same field are the same text. *)
Theorem csv_field_decides_the_text (js : Host) (s t : string) :
  escape js (VStr s) = escape js (VStr t) -> s = t.
Proof.
  unfold escape. simpl.
  destruct (has_char csv_special s) eqn:Es, (has_char csv_special t) eqn:Et; intros H.
  - unfold dquote at 1 3 in H. injection H as H.
    change (double_quotes s +:+ dquote = double_quotes t +:+ dquote) in H.
    by apply append_inj_r, double_quotes_inj in H.
  - rewrite <- H in Et. by vm_compute in Et.
  - rewrite H in Es. by vm_compute in Es.
  - done.
Qed.

Lemma csv_field_decides_the_text_witness :
  escape Example.host (VStr "a,b") = escape Example.host (VStr "a,b") /\ "a,b" = "a,b".
Proof.
  split; [reflexivity |].
  exact (csv_field_decides_the_text Example.host "a,b" "a,b" eq_refl).
Defined.

End CsvFacts.

(** ** The statistics of the analytics page *)

Module StatisticsFacts.
Import Js Analytics Statistics FloatFacts.

Lemma float_mul_comm (x y : float) : (x * y)%float = (y * x)%float.
Proof.
  apply Prim2SF_inj. rewrite !FloatAxioms.mul_spec. unfold SF64mul, SFmul.
  destruct (Prim2SF x) as [s | s | | s m e], (Prim2SF y) as [s' | s' | | s' m' e'];
    try reflexivity; rewrite (xorb_comm s s'); try reflexivity.
  by rewrite (Pos.mul_comm m m'), (Z.add_comm e e').
Qed.

Lemma combine_swap {A B : Type} (x : list A) (y : list B) :
  combine y x = map (fun p => (p.2, p.1)) (combine x y).
Proof.
  revert y. induction x as [| a x IH]; intros [| b y]; simpl; try done.
  by rewrite IH.
Qed.

Lemma pearson_fold_swap (l : list (float * float)) (acc : Sums) :
  fold_left pearson_step (map (fun p => (p.2, p.1)) l) (swap_sums acc)
  = swap_sums (fold_left pearson_step l acc).
Proof.
  revert acc. induction l as [| [xi yi] l IH]; intros acc; simpl; [done |].
  rewrite <- IH. f_equal.
  destruct (isFiniteNumber xi), (isFiniteNumber yi); simpl; try done.
  unfold swap_sums. simpl. by rewrite (float_mul_comm yi xi).
Qed.

Lemma pearson_comm (x y : list float) : pearson x y = pearson y x.
Proof.
  unfold pearson. rewrite (Nat.min_comm (length y) (length x)).
  destruct (_ <? 2)%nat; [done |].
  assert (H : fold_left pearson_step (combine y x)
                {| sx := 0; sy := 0; sxx := 0; syy := 0; sxy := 0 |}
              = swap_sums (fold_left pearson_step (combine x y)
                             {| sx := 0; sy := 0; sxx := 0; syy := 0; sxy := 0 |})).
  { rewrite (combine_swap x y).
    exact (pearson_fold_swap (combine x y)
             {| sx := 0; sy := 0; sxx := 0; syy := 0; sxy := 0 |}). }
  rewrite H.
  set (acc := fold_left pearson_step (combine x y) _).
  set (n := num_of_nat _). simpl.
  rewrite (float_mul_comm (sy acc) (sx acc)).
  by rewrite (float_mul_comm (n * syy acc - sy acc * sy acc) (n * sxx acc - sx acc * sx acc)).
Qed.

(** The correlation does not depend on the order of its two columns:
    neither [pearson] on two arrays nor the entry that [correlations]
    computes for two numeric columns of the rows. *)
Theorem correlation_is_symmetric (js : Host) (rows : list (gmap string Js.value))
    (a b : string) (x y : list float) :
  pearson x y = pearson y x /\ correlation js rows a b = correlation js rows b a.
Proof.
  split; [apply pearson_comm |]. unfold correlation.
  rewrite (Nat.min_comm (length (List.filter isFiniteNumber (map _ rows)))).
  destruct (_ <? 2)%nat; [done |]. f_equal. apply pearson_comm.
Qed.

Lemma ltb_nan_l (x v : float) : PrimFloat.is_nan x = true -> (x <? v)%float = false.
Proof.
  intros H%is_nan_spec. rewrite FloatAxioms.ltb_spec. unfold SFltb. by rewrite H.
Qed.

Lemma ltb_nan_r (x v : float) : PrimFloat.is_nan x = true -> (v <? x)%float = false.
Proof.
  intros H%is_nan_spec. rewrite FloatAxioms.ltb_spec. unfold SFltb. rewrite H.
  by destruct (Prim2SF v) as [| [] | |].
Qed.

Lemma minMax_fold (x : float) (rest : list float) :
  minMax (x :: rest) = fold_left minMax_step rest (x, x).
Proof.
  unfold minMax. generalize (x, x). induction rest as [| v rest IH]; intros acc; [done |].
  simpl. rewrite IH. by destruct acc.
Qed.

Lemma minMax_step_bounds (seen : list float) (acc : float * float) (v : float) :
  bounds seen acc -> bounds (seen ++ [v]) (minMax_step acc v).
Proof.
  destruct acc as [mn mx]. intros (Hmn & Hmx & Himn & Himx & Hall). simpl in *.
  destruct (PrimFloat.is_nan v) eqn:Hv.
  - rewrite (ltb_nan_l v mn Hv), (ltb_nan_r v mx Hv). unfold bounds. simpl.
    split; [done |]. split; [done |].
    split; [apply elem_of_app; by left |]. split; [apply elem_of_app; by left |].
    intros w [Hw | Hw%list_elem_of_singleton]%elem_of_app Hnan; [by apply Hall |].
    subst w. congruence.
  - unfold bounds. simpl.
    assert (Hlo : forall w, w ∈ seen ++ [v] -> PrimFloat.is_nan w = false ->
                  ((if (v <? mn)%float then v else mn) <=? w)%float = true).
    { intros w [Hw | Hw%list_elem_of_singleton]%elem_of_app Hnan.
      - destruct (v <? mn)%float eqn:E; [| by apply Hall].
        apply (leb_trans v mn w); [by apply ltb_leb | by apply Hall].
      - subst w. destruct (v <? mn)%float eqn:E; [by apply leb_refl |].
        by apply not_ltb_leb. }
    assert (Hhi : forall w, w ∈ seen ++ [v] -> PrimFloat.is_nan w = false ->
                  (w <=? (if (mx <? v)%float then v else mx))%float = true).
    { intros w [Hw | Hw%list_elem_of_singleton]%elem_of_app Hnan.
      - destruct (mx <? v)%float eqn:E; [| by apply Hall].
        apply (leb_trans w mx v); [by apply Hall | by apply ltb_leb].
      - subst w. destruct (mx <? v)%float eqn:E; [by apply leb_refl |].
        by apply not_ltb_leb. }
    split; [by destruct (v <? mn)%float |]. split; [by destruct (mx <? v)%float |].
    split; [| split; [| by split; auto]].
    + apply elem_of_app. destruct (v <? mn)%float; [right; by left | by left].
    + apply elem_of_app. destruct (mx <? v)%float; [right; by left | by left].
Qed.

Lemma minMax_fold_bounds (rest seen : list float) (acc : float * float) :
  bounds seen acc -> bounds (seen ++ rest) (fold_left minMax_step rest acc).
Proof.
  revert seen acc. induction rest as [| v rest IH]; intros seen acc H; simpl.
  - by rewrite app_nil_r.
  - rewrite (cons_middle v seen rest), app_assoc. apply IH. by apply minMax_step_bounds.
Qed.

(** When the first number is not NaN, the minimum and the maximum are
    numbers of the array, neither is NaN, and they bound every number of the
    array that is not NaN. *)
Theorem minMax_bounds_the_numbers (x : float) (rest : list float) :
  PrimFloat.is_nan x = false ->
  PrimFloat.is_nan (minMax (x :: rest)).1 = false
  /\ PrimFloat.is_nan (minMax (x :: rest)).2 = false
  /\ (minMax (x :: rest)).1 ∈ x :: rest
  /\ (minMax (x :: rest)).2 ∈ x :: rest
  /\ forall v, v ∈ x :: rest -> PrimFloat.is_nan v = false ->
       ((minMax (x :: rest)).1 <=? v)%float = true
       /\ (v <=? (minMax (x :: rest)).2)%float = true.
Proof.
  intros Hx. rewrite minMax_fold. apply (minMax_fold_bounds rest [x] (x, x)).
  unfold bounds. simpl. split; [done |]. split; [done |].
  split; [by left |]. split; [by left |].
  intros v ->%list_elem_of_singleton _. split; by apply leb_refl.
Qed.

Lemma minMax_bounds_the_numbers_witness :
  PrimFloat.is_nan (minMax (3 :: [1; 2])%float).1 = false
  /\ PrimFloat.is_nan (minMax (3 :: [1; 2])%float).2 = false
  /\ (minMax (3 :: [1; 2])%float).1 ∈ (3 :: [1; 2])%float
  /\ (minMax (3 :: [1; 2])%float).2 ∈ (3 :: [1; 2])%float
  /\ forall v, v ∈ (3 :: [1; 2])%float -> PrimFloat.is_nan v = false ->
       ((minMax (3 :: [1; 2])%float).1 <=? v)%float = true
       /\ (v <=? (minMax (3 :: [1; 2])%float).2)%float = true.
Proof. exact (minMax_bounds_the_numbers 3%float [1; 2]%float eq_refl). Defined.

(** When the first number is NaN, the minimum and the maximum are NaN,
    whatever numbers follow. *)
Theorem minMax_of_nan_head (x : float) (rest : list float) :
  PrimFloat.is_nan x = true -> minMax (x :: rest) = (x, x).
Proof.
  intros Hx. rewrite minMax_fold. induction rest as [| v rest IH]; simpl; [done |].
  by rewrite (ltb_nan_r x v Hx), (ltb_nan_l x v Hx).
Qed.

Lemma minMax_of_nan_head_witness :
  minMax (PrimFloat.nan :: [1; 2]%float) = (PrimFloat.nan, PrimFloat.nan).
Proof. exact (minMax_of_nan_head PrimFloat.nan [1; 2]%float eq_refl). Defined.

Lemma sort_insert_length (x : float) (l : list float) :
  length (sort_insert x l) = S (length l).
Proof.
  induction l as [| y l IH]; simpl; [done |].
  destruct (y <? x)%float; simpl; [by rewrite IH | done].
Qed.

Lemma sort_numbers_length (l : list float) : length (sort_numbers l) = length l.
Proof.
  unfold sort_numbers. induction l as [| x l IH]; simpl; [done |].
  by rewrite sort_insert_length, IH.
Qed.

Lemma fence_loop_spec (lo hi : float) (k : nat) (s : list float) (i : nat) :
  i ∈ fence_loop lo hi k s
  <-> exists j v, i = k + j /\ s !! j = Some v
                  /\ ((v <? lo)%float || (hi <? v)%float) = true.
Proof.
  revert k. induction s as [| y s IH]; intros k; simpl.
  - split; [by intros ?%elem_of_nil | by intros (j & v & _ & ? & _)].
  - destruct ((y <? lo)%float || (hi <? y)%float) eqn:E.
    + rewrite elem_of_cons, IH. split.
      * intros [-> | (j & v & -> & Hj & Hv)].
        -- exists 0, y. split; [lia | done].
        -- exists (S j), v. split; [lia | done].
      * intros (j & v & -> & Hj & Hv). destruct j as [| j].
        -- left. lia.
        -- right. exists j, v. split; [lia | done].
    + rewrite IH. split.
      * intros (j & v & -> & Hj & Hv). exists (S j), v. split; [lia | done].
      * intros (j & v & -> & Hj & Hv). destruct j as [| j].
        -- simpl in Hj. injection Hj as <-. congruence.
        -- exists j, v. split; [lia | done].
Qed.

Lemma fence_loop_length (lo hi : float) (k : nat) (s : list float) :
  length (fence_loop lo hi k s) <= length s.
Proof.
  revert k. induction s as [| y s IH]; intros k; simpl; [done |].
  specialize (IH (S k)). destruct (_ || _); simpl; lia.
Qed.

Lemma sort_insert_perm (x : float) (l : list float) : sort_insert x l ≡ₚ x :: l.
Proof.
  induction l as [| y l IH]; simpl; [done |].
  destruct (y <? x)%float; [| done]. rewrite IH. apply Permutation_swap.
Qed.

Lemma sort_numbers_perm (l : list float) : sort_numbers l ≡ₚ l.
Proof.
  unfold sort_numbers. induction l as [| x l IH]; simpl; [done |].
  by rewrite sort_insert_perm, IH.
Qed.

Lemma sort_insert_ascending (x : float) (l : list float) :
  PrimFloat.is_nan x = false ->
  Forall (fun y => PrimFloat.is_nan y = false) l ->
  ascending l -> ascending (sort_insert x l).
Proof.
  intros Hx Hl. induction Hl as [| y l Hy Hl IH]; simpl.
  - intros _. split; [constructor | done].
  - intros [Hall Hasc]. destruct (y <? x)%float eqn:E; simpl.
    + split; [| by apply IH].
      rewrite (sort_insert_perm x l). constructor; [by apply ltb_leb | done].
    + assert (Hxy : (x <=? y)%float = true) by by apply not_ltb_leb.
      split; [| done]. constructor; [done |].
      eapply Forall_impl; [exact Hall |]. intros z Hz. by apply (leb_trans x y z).
Qed.

Lemma sort_numbers_ascending (l : list float) :
  Forall (fun y => PrimFloat.is_nan y = false) l -> ascending (sort_numbers l).
Proof.
  unfold sort_numbers. induction 1 as [| x l Hx Hl IH]; simpl; [done |].
  apply sort_insert_ascending; [done | | done].
  fold (sort_numbers l). by rewrite sort_numbers_perm.
Qed.

(** The outliers by the interquartile range are counted and listed by
    their position in the sorted copy of the array, not in the array.  For
    an array of finite numbers, not empty: the copy holds the numbers of the
    array in ascending order; a position is listed exactly when the number
    there in the copy lies outside the fences; there are at most as many
    as numbers. *)
Theorem iqrOutliers_lists_sorted_positions (a : list float) :
  a <> [] ->
  Forall (fun x => isFinite x = true) a ->
  sort_numbers a ≡ₚ a
  /\ ascending (sort_numbers a)
  /\ iqr_count (iqrOutliers a) = length (iqr_idx (iqrOutliers a))
  /\ iqr_count (iqrOutliers a) <= length a
  /\ forall i,
       i ∈ iqr_idx (iqrOutliers a)
       <-> exists v, sort_numbers a !! i = Some v
                     /\ ((v <? (fences (iqrOutliers a)).1)%float
                         || ((fences (iqrOutliers a)).2 <? v)%float) = true.
Proof.
  intros Ha Hfin.
  split; [apply sort_numbers_perm |]. split.
  { apply sort_numbers_ascending. eapply Forall_impl; [exact Hfin |].
    intros x. apply is_finite_not_nan. }
  destruct a as [| x a]; [done |]. unfold iqrOutliers.
  set (s := sort_numbers (x :: a)). cbn [iqr_count iqr_idx fences fst snd].
  split; [done |]. split.
  - rewrite <- (sort_numbers_length (x :: a)). apply fence_loop_length.
  - intros i. rewrite fence_loop_spec. split.
    + intros (j & v & -> & Hj & Hv). by exists v.
    + intros (v & Hi & Hv). by exists i, v.
Qed.

(** The array [100, 1, 2, 3, 2]: its one outlier 100 stands first, and
    is listed as position 4, its place in the sorted copy; the array holds
    2 there. *)
Lemma iqrOutliers_lists_sorted_positions_witness :
  iqr_idx (iqrOutliers [100; 1; 2; 3; 2]%float) = [4]
  /\ [100; 1; 2; 3; 2]%float !! 4 = Some 2%float
  /\ sort_numbers [100; 1; 2; 3; 2]%float = [1; 2; 2; 3; 100]%float
  /\ sort_numbers [100; 1; 2; 3; 2]%float ≡ₚ [100; 1; 2; 3; 2]%float
  /\ ascending (sort_numbers [100; 1; 2; 3; 2]%float).
Proof.
  split; [reflexivity |]. split; [reflexivity |]. split; [reflexivity |].
  pose proof (iqrOutliers_lists_sorted_positions [100; 1; 2; 3; 2]%float
                ltac:(discriminate) ltac:(repeat constructor)) as H.
  exact (conj (proj1 H) (proj1 (proj2 H))).
Defined.

Lemma count_loop_size (seen : gset string) (keys : list string) :
  count_loop seen keys + size (seen ∪ list_to_set keys) = length keys + size seen.
Proof.
  revert seen. induction keys as [| k keys IH]; intros seen; simpl.
  - by rewrite (right_id_L ∅ (∪)).
  - destruct (decide (k ∈ seen)) as [Hin | Hout].
    + replace (seen ∪ ({[k]} ∪ list_to_set keys)) with (seen ∪ list_to_set keys).
      * specialize (IH seen). lia.
      * apply set_eq. intros z. rewrite !elem_of_union, elem_of_singleton.
        split; [intuition | intros [? | [-> | ?]]; auto].
    + specialize (IH ({[k]} ∪ seen)).
      replace (seen ∪ ({[k]} ∪ list_to_set keys))
        with ({[k]} ∪ seen ∪ list_to_set keys).
      * assert (Hsize : size ({[k]} ∪ seen) = S (size seen)).
        { rewrite size_union, size_singleton; [done |].
          intros z ->%elem_of_singleton. done. }
        lia.
      * apply set_eq. intros z. rewrite !elem_of_union, elem_of_singleton. intuition.
Qed.

Lemma count_loop_zero (seen : gset string) (keys : list string) :
  count_loop seen keys = 0 <-> NoDup keys /\ forall k, k ∈ keys -> k ∉ seen.
Proof.
  revert seen. induction keys as [| k keys IH]; intros seen; simpl.
  - split; [| done]. intros _. split; [constructor | by intros k ?%elem_of_nil].
  - destruct (decide (k ∈ seen)) as [Hin | Hout].
    + split; [done |]. intros [_ H]. exfalso. apply (H k); [by left | done].
    + rewrite IH, NoDup_cons. split.
      * intros [Hnd H]. split; [split; [| done] |].
        -- intros Hk. apply (H k Hk), elem_of_union. left. by apply elem_of_singleton.
        -- intros z [-> | Hz]%elem_of_cons; [done |].
           intros ?. apply (H z Hz), elem_of_union. by right.
      * intros [[Hk Hnd] H]. split; [done |].
        intros z Hz [->%elem_of_singleton | Hs]%elem_of_union; [done |].
        apply (H z); [by right | done].
Qed.

(** The duplicate count and the number of distinct keys add up to the
    number of rows, and the count is 0 exactly when no two rows have the
    same key. *)
Theorem countDuplicates_counts_repeats {Row : Type} (key : Row -> string)
    (rows : list Row) :
  countDuplicates key rows + size (list_to_set (map key rows) : gset string) = length rows
  /\ (countDuplicates key rows = 0 <-> NoDup (map key rows)).
Proof.
  unfold countDuplicates. split.
  - pose proof (count_loop_size ∅ (map key rows)) as H.
    rewrite (left_id_L ∅ (∪)), size_empty, length_map in H. lia.
  - rewrite count_loop_zero. split; [by intros [? _] |].
    intros ?. split; [done |]. intros k _. apply not_elem_of_empty.
Qed.

(** The duplicate count shown with the cleaning preview is the count
    that the loop of the analytics page gives for the flattened rows under
    the key of the preview. *)
Theorem preview_dups_is_countDuplicates (js : Host) (ds : Cleaning.DatasetLike)
    (actions : list Cleaning.CleaningAction) :
  Cleaning.dups (Cleaning.stats (Cleaning.preview js (Some ds) actions))
  = countDuplicates (Cleaning.stableKey js)
      (map Cleaning.flatten_row (Cleaning.execute js ds actions)).
Proof.
  unfold Cleaning.preview. simpl.
  unfold countDuplicates.
  pose proof (count_loop_size ∅
                (map (Cleaning.stableKey js)
                   (map Cleaning.flatten_row (Cleaning.execute js ds actions)))) as H.
  rewrite (left_id_L ∅ (∪)), size_empty, !length_map in H. rewrite !length_map. lia.
Qed.

End StatisticsFacts.

(** ** The column analysers *)

Module InferenceFacts.
Import Js.

Lemma elements_of_length (values acc : list Js.value) :
  length
    (fold_left
       (fun seen v => if existsb (JsSet.same_value_zero v) seen then seen else v :: seen)
       values acc)
  <= length values + length acc.
Proof.
  revert acc. induction values as [| v values IH]; intros acc; simpl; [lia |].
  destruct (existsb _ acc).
  - specialize (IH acc). lia.
  - specialize (IH (v :: acc)). simpl in IH. lia.
Qed.

Lemma size_of_le (values : list Js.value) : JsSet.size_of values <= length values.
Proof.
  unfold JsSet.size_of, JsSet.elements_of.
  pose proof (elements_of_length values []) as H. simpl in H. lia.
Qed.

Lemma filter_length_le {A : Type} (p : A -> bool) (l : list A) :
  length (List.filter p l) <= length l.
Proof. induction l as [| x l IH]; simpl; [lia |]. destruct (p x); simpl; lia. Qed.

Lemma filter_none {A : Type} (p : A -> bool) (l : list A) :
  (forall x, x ∈ l -> p x = false) -> List.filter p l = [].
Proof.
  induction l as [| x l IH]; intros H; simpl; [done |].
  rewrite (H x) by by left. apply IH. intros y Hy. apply H. by right.
Qed.

(** The categorical test of the backend fails for every count of
    distinct values up to a count of values up to 20. *)
Lemma backend_rule_small :
  forallb
    (fun len =>
       forallb
         (fun u => negb ((num_of_nat u <? num_of_nat len * 0.1)%float && (1 <? u)%nat))
         (seq 0 (S len)))
    (seq 0 21)
  = true.
Proof. vm_compute. reflexivity. Qed.

(** The counts of a column of the backend analyser: the missing values
    and the distinct values present together are at most the rows. *)
Theorem backend_counts_within_rows (js : Host) (data : list (gmap string Js.value))
    (columnName : string) :
  Backend.name (Backend.analyzeColumn js data columnName) = columnName
  /\ Backend.missingCount (Backend.analyzeColumn js data columnName) <= length data
  /\ Backend.uniqueCount (Backend.analyzeColumn js data columnName)
     + Backend.missingCount (Backend.analyzeColumn js data columnName) <= length data.
Proof.
  unfold Backend.analyzeColumn. simpl. split; [done |]. split; [lia |].
  set (all := map _ data).
  pose proof (size_of_le (List.filter Backend.present all)) as Hu.
  pose proof (filter_length_le Backend.present all) as Hf.
  assert (length all = length data) by apply length_map. lia.
Qed.

(** The backend analyser never answers categorical for a dataset of at
    most 20 rows. *)
Theorem backend_small_dataset_never_categorical (js : Host)
    (data : list (gmap string Js.value)) (columnName : string) :
  length data <= 20 ->
  Backend.type (Backend.analyzeColumn js data columnName) <> categorical.
Proof.
  intros Hlen. unfold Backend.analyzeColumn. simpl.
  set (values := List.filter Backend.present _).
  assert (Hv : length values <= 20).
  { pose proof (filter_length_le Backend.present
                  (map (fun row => default VUndefined (row !! columnName)) data)) as Hf.
    rewrite length_map in Hf. unfold values. lia. }
  pose proof (size_of_le values) as Hu.
  assert (Hlen' : In (length values) (seq 0 21)) by (apply in_seq; lia).
  assert (Hsize : In (JsSet.size_of values) (seq 0 (S (length values))))
    by (apply in_seq; lia).
  pose proof (proj1 (forallb_forall _ _) backend_rule_small _ Hlen') as Hrule.
  cbv beta in Hrule.
  pose proof (proj1 (forallb_forall _ _) Hrule _ Hsize) as Hcase.
  apply negb_true_iff in Hcase.
  unfold Backend.detect_type.
  destruct (_ <? num_of_nat (length (List.filter _ _)))%float; [done |].
  fold values. rewrite Hcase. by destruct (existsb _ _).
Qed.

Lemma backend_small_dataset_never_categorical_witness :
  length [ ({[ "k" := VStr "a" ]} : gmap string Js.value); {[ "k" := VStr "b" ]};
           {[ "k" := VStr "a" ]} ] <= 20
  /\ Backend.type
       (Backend.analyzeColumn Example.host
          [ {[ "k" := VStr "a" ]}; {[ "k" := VStr "b" ]}; {[ "k" := VStr "a" ]} ] "k")
     <> categorical.
Proof.
  split; [simpl; lia |].
  apply (backend_small_dataset_never_categorical Example.host
           [ {[ "k" := VStr "a" ]}; {[ "k" := VStr "b" ]}; {[ "k" := VStr "a" ]} ] "k").
  simpl. lia.
Defined.

(** The analyser of the data utilities answers numeric or categorical,
    never date or text, for a dataset of at most 50 rows. *)
Theorem utilities_small_dataset_never_date (js : Host)
    (data : list (gmap string Js.value)) (columnName : string) :
  length data <= 50 ->
  DataUtils.detect_type js (DataUtils.column_values data columnName) = numeric
  \/ DataUtils.detect_type js (DataUtils.column_values data columnName) = categorical.
Proof.
  intros Hlen. set (values := DataUtils.column_values data columnName).
  assert (Hv : length values <= 50).
  { pose proof (filter_length_le (fun v => negb (DataUtils.isMissing v))
                  (map (fun row => default VUndefined (row !! columnName)) data)) as Hf.
    rewrite length_map in Hf. unfold values, DataUtils.column_values. lia. }
  pose proof (size_of_le values) as Hu.
  unfold DataUtils.detect_type. destruct (0.8 <? _)%float; [by left | right].
  assert (E : (JsSet.size_of values <=? 50)%nat = true) by (apply Nat.leb_le; lia).
  by rewrite E.
Qed.

Lemma utilities_small_dataset_never_date_witness :
  DataUtils.detect_type Example.host
    (DataUtils.column_values [ {[ "k" := VStr "2020-01-01" ]} ] "k") = numeric
  \/ DataUtils.detect_type Example.host
       (DataUtils.column_values [ {[ "k" := VStr "2020-01-01" ]} ] "k") = categorical.
Proof.
  apply (utilities_small_dataset_never_date Example.host [ {[ "k" := VStr "2020-01-01" ]} ] "k").
  simpl. lia.
Defined.

(** A column whose every value is null, undefined or the empty text is
    counted as all missing by the backend analyser and typed text there,
    and typed categorical by the analyser of the data utilities. *)
Theorem all_missing_column_types (js : Host) (data : list (gmap string Js.value))
    (columnName : string) :
  (forall row, row ∈ data -> Backend.present (default VUndefined (row !! columnName)) = false) ->
  Backend.analyzeColumn js data columnName
  = {| Backend.name := columnName; Backend.type := text;
       Backend.missingCount := length data; Backend.uniqueCount := 0 |}
  /\ DataUtils.detect_type js (DataUtils.column_values data columnName) = categorical.
Proof.
  intros Hall. split.
  - unfold Backend.analyzeColumn. rewrite filter_none.
    + simpl. f_equal. lia.
    + intros v (row & <- & Hrow)%list_elem_of_In%in_map_iff.
      by apply Hall, list_elem_of_In.
  - unfold DataUtils.column_values. rewrite filter_none; [done |].
    intros v (row & <- & Hrow)%list_elem_of_In%in_map_iff.
    apply list_elem_of_In, Hall in Hrow. simpl.
    destruct (default VUndefined (row !! columnName)) as [| | | | s |]; try done.
Qed.

Lemma all_missing_column_types_witness :
  Backend.analyzeColumn Example.host [ {[ "k" := VNull ]}; ∅ ] "k"
  = {| Backend.name := "k"; Backend.type := text;
       Backend.missingCount := length [ ({[ "k" := VNull ]} : gmap string Js.value); ∅ ];
       Backend.uniqueCount := 0 |}
  /\ DataUtils.detect_type Example.host
       (DataUtils.column_values [ {[ "k" := VNull ]}; ∅ ] "k") = categorical.
Proof.
  apply (all_missing_column_types Example.host [ {[ "k" := VNull ]}; ∅ ] "k").
  intros row Hrow. apply list_elem_of_In in Hrow.
  destruct Hrow as [<- | [<- | []]]; reflexivity.
Defined.

End InferenceFacts.

(** ** The custom fill form *)

Module FormFacts.
Import Js Cleaning Workbench.

Lemma autoParse_not_missing (js : Host) (v : string) :
  Js.trim js EmptyString = EmptyString ->
  Js.trim js v <> EmptyString ->
  isNullish (autoParse js v) = false.
Proof.
  intros Hempty Hv. unfold autoParse.
  rewrite bool_decide_eq_false_2 by done.
  destruct (PrimFloat.is_nan _); [| done]. simpl.
  apply bool_decide_eq_false_2. intros ->. by apply Hv.
Qed.

(** A step that the custom fill form adds to the queue is a fill of the
    column of the form whose replacement is not a missing value: a number
    that is not NaN, or the text as typed when it does not read as a number.
    After that step, no row has a missing cell in the column.  (The runtime
    trims the empty text to the empty text.) *)
Theorem custom_fill_form_adds_a_filling_step (js : Host) (new_id : string)
    (actions : list CleaningAction) (typed name : string) (a : CleaningAction)
    (st : State) :
  Js.trim js EmptyString = EmptyString ->
  a ∈ (handleCustomFillSubmit js new_id actions typed name).1 ->
  a ∉ actions ->
  type a = FILL_MISSING
  /\ columnName (payload a) = Some name
  /\ customValue (payload a) = autoParse js typed
  /\ (forall x, customValue (payload a) = VNum x -> PrimFloat.is_nan x = false)
  /\ Forall (fun r => forall c, r !! name = Some c -> isNullish (value c) = false)
       (processed (applyAction js a st)).
Proof.
  intros Hempty Hin Hnew. unfold handleCustomFillSubmit in Hin.
  destruct (bool_decide (Js.trim js typed = EmptyString)) eqn:Hv; [done |].
  apply bool_decide_eq_false in Hv.
  unfold handleAddAction in Hin. destruct (isRedundant actions _); [done |].
  simpl in Hin. apply elem_of_app in Hin as [Hin | Hin]; [done |].
  apply list_elem_of_singleton in Hin. subst a. simpl.
  split; [done |]. split; [done |]. split; [done |]. split.
  - unfold autoParse. rewrite bool_decide_eq_false_2 by done.
    destruct (PrimFloat.is_nan _) eqn:E; [done |]. by intros x [= <-].
  - unfold applyAction. simpl. apply Forall_fmap, Forall_forall. intros r _ c.
    apply Guarantees.fill_row_filled. by apply autoParse_not_missing.
Qed.

Lemma custom_fill_form_adds_a_filling_step_witness :
  type (Example.step "7" FILL_MISSING
          {| columnName := Some "age"; strategy := Some Custom;
             customValue := autoParse Example.host "n/a"; newType := None;
             roundTo := None; scaleMin := None; scaleMax := None; find := None;
             replaceWith := None; part := None |}) = FILL_MISSING
  /\ Forall (fun r => forall c, r !! "age" = Some c -> isNullish (value c) = false)
       (processed
          (applyAction Example.host
             {| id := "7"; type := FILL_MISSING;
                description :=
                  "Fill missing in '" +:+ "age" +:+ "' with " +:+ dquote
                  +:+ ToString Example.host (autoParse Example.host "n/a") +:+ dquote;
                payload :=
                  {| columnName := Some "age"; strategy := Some Custom;
                     customValue := autoParse Example.host "n/a"; newType := None;
                     roundTo := None; scaleMin := None; scaleMax := None; find := None;
                     replaceWith := None; part := None |} |}
             (initial (Example.one_column "age" [VNum 10; VNull])))).
Proof.
  split; [reflexivity |].
  refine (proj2 (proj2 (proj2 (proj2
            (custom_fill_form_adds_a_filling_step Example.host "7" [] "n/a" "age" _
               (initial (Example.one_column "age" [VNum 10; VNull])) eq_refl _ _))))).
  - vm_compute. left.
  - apply not_elem_of_nil.
Defined.

End FormFacts.

(** ** The type inference of the analytics page *)

Module ScanFacts.
Import Js Analytics.

(** The inferred type of a column depends on its first 50 values that
    are not missing only: whatever follows them changes nothing. *)
Theorem infer_column_reads_fifty_values (js : Host) (column more : list Js.value) :
  50 <= length (List.filter (fun v => negb (isMissing v)) column) ->
  infer_column js (column ++ more) = infer_column js column.
Proof.
  intros Hlen. unfold infer_column.
  rewrite List.filter_app, firstn_app.
  replace (50 - length (List.filter (fun v => negb (isMissing v)) column)) with 0 by lia.
  by rewrite firstn_O, app_nil_r.
Qed.

Lemma infer_column_reads_fifty_values_witness :
  infer_column Example.host (repeat (VNum 1) 50 ++ [VStr "2020-01-01"])
  = infer_column Example.host (repeat (VNum 1) 50).
Proof.
  apply (infer_column_reads_fifty_values Example.host (repeat (VNum 1) 50)
           [VStr "2020-01-01"]).
  vm_compute. lia.
Defined.

End ScanFacts.
